(** * Room chat backend: persistence gateway, membership, fan-out, presence

  A shallow embedding of the database utilities and the broadcasting
  coroutines of [main.py], and the properties of the messaging core that
  hold of them.

  The SQL database is a record of four tables; a table is the list of its
  rows in rowid order.  The global dictionary [user_sockets] is a finite
  map from usernames to finite sets of sockets.  Coroutines that send on
  sockets run in a state-and-exception monad over the whole world (the
  database, the socket registry and the log of what every socket
  received).  The state of the chat application that is not a widget (its
  current user and room), the sessions and the avatar cache are modelled
  beside it. *)

From Stdlib Require Import ZArith Ascii String OrdersEx.
From stdpp Require Import gmap strings list fin_maps sorting.

Local Open Scope Z_scope.
#[local] Set Warnings "-clear-no-such-hyp".

(** ** Database models *)

(** Timestamps ([datetime.utcnow()]) are integers: microseconds since the
  epoch.  Functions that read the clock take the reading as [now]. *)
Definition datetime := Z.

Module User.
Record t := mk {
  id : Z;
  username : string;
  email : string;
  hashed_password : string;
  full_name : string;
  avatar_url : string;
  is_online : bool;
  last_seen : datetime;
  created_at : datetime
}.
End User.

Module ChatRoom.
Record t := mk {
  id : Z;
  name : string;
  slug : string;
  description : option string;
  created_by : Z;
  created_at : datetime;
  is_private : bool
}.
End ChatRoom.

Module RoomMember.
Record t := mk {
  id : Z;
  room_id : Z;
  user_id : Z;
  joined_at : datetime;
  is_admin : bool
}.
End RoomMember.

Module Message.
Record t := mk {
  id : Z;
  content : string;
  sender_id : Z;
  room_id : Z;
  message_type : string;
  file_path : option string;
  created_at : datetime;
  is_edited : bool;
  edited_at : option datetime
}.
End Message.

(** The database behind [SessionLocal()]. *)
Record DB := mkDB {
  users : list User.t;
  chat_rooms : list ChatRoom.t;
  room_members : list RoomMember.t;
  messages : list Message.t
}.

Definition empty_db : DB := mkDB [] [] [] [].

(** An INTEGER PRIMARY KEY column of SQLite: one more than the largest
  rowid of the table, 1 for an empty table. *)
Definition next_id (ids : list Z) : Z := 1 + foldr Z.max 0 ids.

(** ** Exceptions *)

Inductive exn :=
| IntegrityError      (* a UNIQUE constraint refused a commit *)
| PasswordValueError  (* the password context refused a password *)
| SendError.          (* socket.send raised *)

Inductive outcome (A : Type) :=
| Ok (a : A)
| Raise (e : exn).
Arguments Ok {A} a.
Arguments Raise {A} e.

(** ** Database utilities *)

Section Gateway.
(** What the utilities call outside the core: [slugify] of python-slugify,
    [hash] and [verify] of the passlib context, either of which may raise
    (the bcrypt handler refuses a password with a NUL character), and
    [avatar_manager.get_default_avatar], which asks a web service once per
    username and caches the answer. *)
Variable slugify : string -> string.
Variable pwd_hash : string -> outcome string.
Variable pwd_verify : string -> string -> outcome bool.
Variable get_default_avatar : string -> string.

(** [db.query(User).filter(User.username == username).first()] *)
Definition user_by_username (db : DB) (username : string) : option User.t :=
  head (filter (fun u => User.username u = username) (users db)).

(** [db.query(ChatRoom).filter(ChatRoom.slug == room_slug).first()] *)
Definition room_by_slug (db : DB) (room_slug : string) : option ChatRoom.t :=
  head (filter (fun r => ChatRoom.slug r = room_slug) (chat_rooms db)).

(** The query of [join_room]. *)
Definition membership_rows (db : DB) (user_id room_id : Z) : list RoomMember.t :=
  filter (fun m => RoomMember.user_id m = user_id /\ RoomMember.room_id m = room_id)
         (room_members db).

(** [full_name or username]: [None] and the empty string are falsy. *)
Definition or_username (full_name : option string) (username : string) : string :=
  match full_name with
  | Some (String c s) => String c s
  | _ => username
  end.

(** The password is hashed first; if that raises, nothing is added.  The
    commit fails on the UNIQUE columns [username] and [email].  The column
    defaults [last_seen] and [created_at] each read the clock. *)
Definition create_user (db : DB) (username email password : string)
    (full_name : option string) (last_seen_now created_at_now : datetime)
    : outcome User.t * DB :=
  match pwd_hash password with
  | Raise e => (Raise e, db)
  | Ok hashed_password =>
      if decide (Exists (fun u => User.username u = username \/ User.email u = email)
                        (users db))
      then (Raise IntegrityError, db)
      else
        let db_user :=
          User.mk (next_id (User.id <$> users db)) username email hashed_password
                  (or_username full_name username) (get_default_avatar username)
                  false last_seen_now created_at_now in
        (Ok db_user,
         mkDB (users db ++ [db_user]) (chat_rooms db) (room_members db) (messages db))
  end.

(** [verify] is reached only for a stored username, [or] being lazy; what
    it raises leaves the function. *)
Definition authenticate_user (db : DB) (username password : string)
    : outcome (option User.t) :=
  match user_by_username db username with
  | None => Ok None
  | Some user =>
      match pwd_verify password (User.hashed_password user) with
      | Raise e => Raise e
      | Ok verified => if negb verified then Ok None else Ok (Some user)
      end
  end.

(** The slug was looked up just before the insert, so the UNIQUE
    constraint on [slug] cannot refuse the commit here. *)
Definition get_or_create_room (db : DB) (room_name : string) (created_by : Z)
    (now : datetime) : ChatRoom.t * DB :=
  let room_slug := slugify room_name in
  match room_by_slug db room_slug with
  | Some room => (room, db)
  | None =>
      let room :=
        ChatRoom.mk (next_id (ChatRoom.id <$> chat_rooms db)) room_name room_slug
                    None created_by now false in
      (room, mkDB (users db) (chat_rooms db ++ [room]) (room_members db) (messages db))
  end.

Definition join_room (db : DB) (user_id room_id : Z) (now : datetime) : DB :=
  match head (membership_rows db user_id room_id) with
  | Some existing => db
  | None =>
      let membership :=
        RoomMember.mk (next_id (RoomMember.id <$> room_members db)) room_id user_id
                      now false in
      mkDB (users db) (chat_rooms db) (room_members db ++ [membership]) (messages db)
  end.

Definition save_message (db : DB) (content : string) (sender_id room_id : Z)
    (message_type : string) (now : datetime) : Message.t * DB :=
  let message :=
    Message.mk (next_id (Message.id <$> messages db)) content sender_id room_id
               message_type None now false None in
  (message, mkDB (users db) (chat_rooms db) (room_members db) (messages db ++ [message])).

(** [ORDER BY created_at DESC]: [a] may come before [b]. *)
Definition newer_first (a b : Message.t) : Prop :=
  Message.created_at b <= Message.created_at a.

#[global] Instance newer_first_dec a b : Decision (newer_first a b).
Proof. unfold newer_first. apply _. Defined.

(** [limit] is a row count (the one caller uses the default, 50). *)
Definition get_room_messages (db : DB) (room_id : Z) (limit : nat) : list Message.t :=
  take limit
    (merge_sort newer_first
       (filter (fun m => Message.room_id m = room_id) (messages db))).

(** What [ChatApp.load_room_messages] iterates over: the rows of
    [get_room_messages] with the default limit, reversed in place to
    show the oldest first. *)
Definition load_room_messages (db : DB) (room_id : Z) : list Message.t :=
  reverse (get_room_messages db room_id 50).

End Gateway.

(** ** The world of the coroutines *)

(** A socket is known by its identity. *)
Definition Socket := nat.

(** The dictionaries handed to [socket.send].  Timestamps are kept as
    clock readings; rendering them ([isoformat], [strftime]) is left to the
    receiver. *)
Inductive Event :=
| user_status (username : string) (is_online : bool) (last_seen : datetime)
| new_message (id : Z) (content sender : string) (room_id : Z)
    (timestamp : datetime) (avatar_url : string).

(** The database, the global [user_sockets], and, for every successful
    [socket.send], the socket and what it was sent, oldest first. *)
Record World := mkWorld {
  db : DB;
  user_sockets : gmap string (gset Socket);
  sent : list (Socket * Event)
}.

Definition set_db (d : DB) (w : World) : World :=
  mkWorld d (user_sockets w) (sent w).
Definition set_user_sockets (us : gmap string (gset Socket)) (w : World) : World :=
  mkWorld (db w) us (sent w).
Definition set_sent (log : list (Socket * Event)) (w : World) : World :=
  mkWorld (db w) (user_sockets w) log.

(** State and exceptions. *)
Definition M (A : Type) : Type := World -> outcome A * World.

Definition ret {A} (a : A) : M A := fun w => (Ok a, w).

Definition bind {A B} (m : M A) (k : A -> M B) : M B :=
  fun w =>
    match m w with
    | (Ok a, w') => k a w'
    | (Raise e, w') => (Raise e, w')
    end.

(** [try: m except: h] with a bare [except]. *)
Definition try_except {A} (m : M A) (h : M A) : M A :=
  fun w =>
    match m w with
    | (Ok a, w') => (Ok a, w')
    | (Raise _, w') => h w'
    end.

Definition modify (f : World -> World) : M unit := fun w => (Ok tt, f w).

Declare Scope chat_scope.
Delimit Scope chat_scope with chat.
Notation "m ;; k" := (bind m (fun _ => k))
  (at level 100, right associativity) : chat_scope.

(** [for x in l: body(x)] *)
Fixpoint for_each {A} (l : list A) (body : A -> M unit) : M unit :=
  match l with
  | [] => ret tt
  | x :: l' => (body x ;; for_each l' body)%chat
  end.

Section Transport.
(** Whether [socket.send] goes through ([true]) or raises. *)
Variable live : Socket -> bool.

Definition send (socket : Socket) (data : Event) : M unit :=
  fun w =>
    if live socket then (Ok tt, set_sent (sent w ++ [(socket, data)]) w)
    else (Raise SendError, w).

(** [user_sockets[username].discard(socket)] *)
Definition discard (username : string) (socket : Socket) : M unit :=
  modify (fun w =>
    set_user_sockets (alter (fun sockets => sockets ∖ {[socket]}) username (user_sockets w)) w).

(** The body of the inner loops: send, and drop the socket if that raises. *)
Definition deliver (username : string) (data : Event) (socket : Socket) : M unit :=
  try_except (send socket data) (discard username socket).

(** The sockets of one user: a copy of the set is walked, the set itself
    is the one the registry holds. *)
Definition notify (data : Event) (username : string) : M unit :=
  fun w =>
    match user_sockets w !! username with
    | Some sockets => for_each (elements sockets) (deliver username data) w
    | None => (Ok tt, w)
    end.

(** The usernames [broadcast_to_room] resolves for a room. *)
Definition room_usernames (d : DB) (room_id : Z) : list string :=
  let members := filter (fun m => RoomMember.room_id m = room_id) (room_members d) in
  let user_ids := RoomMember.user_id <$> members in
  let room_users := filter (fun u => User.id u ∈ user_ids) (users d) in
  User.username <$> room_users.

Definition broadcast_to_room (room_id : Z) (message_data : Event) : M unit :=
  fun w => for_each (room_usernames (db w) room_id) (notify message_data) w.

(** [user.is_online = ...; user.last_seen = ...; db.commit()]: an UPDATE of
    the row with the primary key of [user]. *)
Definition commit_status (user : User.t) (is_online : bool) (now : datetime) (d : DB) : DB :=
  mkDB
    ((fun u =>
        if decide (User.id u = User.id user)
        then User.mk (User.id u) (User.username u) (User.email u) (User.hashed_password u)
                     (User.full_name u) (User.avatar_url u) is_online now (User.created_at u)
        else u) <$> users d)
    (chat_rooms d) (room_members d) (messages d).

(** The loop walks [user_sockets.items()]; the [sockets] of an item is the
    set object the registry holds under that key, so it is read there. *)
Definition update_user_status (username : string) (is_online : bool) (now : datetime)
    : M unit :=
  fun w =>
    match user_by_username (db w) username with
    | Some user =>
        let w1 := set_db (commit_status user is_online now (db w)) w in
        let status_data := user_status username is_online now in
        for_each (map_to_list (user_sockets w1))
                 (fun item => notify status_data item.1) w1
    | None => (Ok tt, w)
    end.

Definition on_connect (username : string) (now : datetime) : M unit :=
  (modify (fun w =>
     match user_sockets w !! username with
     | Some _ => w
     | None => set_user_sockets (<[username := ∅]> (user_sockets w)) w
     end) ;;
   update_user_status username true now)%chat.

Definition on_disconnect (username : string) (now : datetime) : M unit :=
  (modify (fun w =>
     match user_sockets w !! username with
     | Some _ => set_user_sockets (<[username := ∅]> (user_sockets w)) w
     | None => w
     end) ;;
   update_user_status username false now)%chat.

End Transport.

(** ** Sequences of calls *)

(** The entry points of the core, each with the clock reading it sees;
    [create_user] reads the clock once more, for [created_at]. *)
Inductive call :=
| CreateUser (username email password : string) (full_name : option string)
    (created_at_now : datetime)
| GetOrCreateRoom (room_name : string) (created_by : Z)
| JoinRoom (user_id room_id : Z)
| SaveMessage (content : string) (sender_id room_id : Z) (message_type : string)
| BroadcastToRoom (room_id : Z) (message_data : Event)
| UpdateUserStatus (username : string) (is_online : bool)
| OnConnect (username : string)
| OnDisconnect (username : string).

Section Calls.
Variable slugify : string -> string.
Variable pwd_hash : string -> outcome string.
Variable get_default_avatar : string -> string.
Variable live : Socket -> bool.

(** The world after one call; a call that raises leaves what it had
    committed before. *)
Definition exec (c : call) (now : datetime) (w : World) : World :=
  match c with
  | CreateUser username email password full_name created_at_now =>
      set_db (create_user pwd_hash get_default_avatar (db w)
                username email password full_name now created_at_now).2 w
  | GetOrCreateRoom room_name created_by =>
      set_db (get_or_create_room slugify (db w) room_name created_by now).2 w
  | JoinRoom user_id room_id =>
      set_db (join_room (db w) user_id room_id now) w
  | SaveMessage content sender_id room_id message_type =>
      set_db (save_message (db w) content sender_id room_id message_type now).2 w
  | BroadcastToRoom room_id message_data =>
      (broadcast_to_room live room_id message_data w).2
  | UpdateUserStatus username is_online =>
      (update_user_status live username is_online now w).2
  | OnConnect username => (on_connect live username now w).2
  | OnDisconnect username => (on_disconnect live username now w).2
  end.

Definition run (calls : list (call * datetime)) (w : World) : World :=
  foldl (fun w c => exec c.1 c.2 w) w calls.

End Calls.

(** ** Vocabulary of the properties *)

(** UNIQUE(room, user) as a property of the rows: no pair has two rows. *)
Definition at_most_one_membership (d : DB) : Prop :=
  forall user_id room_id, (length (membership_rows d user_id room_id) <= 1)%nat.

(** The UNIQUE constraint on [users.username]. *)
Definition usernames_unique (d : DB) : Prop := NoDup (User.username <$> users d).

(** The UNIQUE constraint on [chat_rooms.slug]. *)
Definition slugs_unique (d : DB) : Prop := NoDup (ChatRoom.slug <$> chat_rooms d).

Definition rooms_with_slug (d : DB) (room_slug : string) : list ChatRoom.t :=
  filter (fun r => ChatRoom.slug r = room_slug) (chat_rooms d).

(** [x] occurs before [y] in [l]. *)
Definition precedes {A} (x y : A) (l : list A) : Prop :=
  exists l1 l2 l3, l = l1 ++ x :: l2 ++ y :: l3.

(** A user with this id has a row in the room. *)
Definition is_member (d : DB) (room_id user_id : Z) : Prop :=
  exists m, m ∈ room_members d /\ RoomMember.room_id m = room_id
            /\ RoomMember.user_id m = user_id.

(** The socket is registered under the username of some member of the room. *)
Definition member_socket (w : World) (room_id : Z) (socket : Socket) : Prop :=
  exists user sockets,
    user ∈ users (db w) /\ is_member (db w) room_id (User.id user)
    /\ user_sockets w !! User.username user = Some sockets /\ socket ∈ sockets.

(** Every registered socket, user by user, in the order the registry is
    walked. *)
Definition audience (us : gmap string (gset Socket)) : list Socket :=
  flat_map (fun item => elements item.2) (map_to_list us).

(** What the loops over sockets leave behind and whom they reach. *)
Section Registry.
Variable live : Socket -> bool.

(** The sockets of a list on which [send] raises. *)
Definition failed (l : list Socket) : gset Socket :=
  list_to_set (filter (fun s => live s = false) l).

(** A set of sockets with the failing ones discarded. *)
Definition prune (sockets : gset Socket) : gset Socket :=
  filter (fun s => live s = true) sockets.

(** The sockets of one user that take a message, in the order walked. *)
Definition recipients_of (us : gmap string (gset Socket)) (username : string)
    : list Socket :=
  filter (fun s => live s = true) (elements (default ∅ (us !! username))).

(** The same for a list of usernames, visited in turn: a username listed
    twice is visited twice, the second time with its set pruned. *)
Fixpoint recipients (usernames : list string) (us : gmap string (gset Socket))
    : list Socket :=
  match usernames with
  | [] => []
  | username :: rest =>
      recipients_of us username ++ recipients rest (alter prune username us)
  end.

Definition prune_all (usernames : list string) (us : gmap string (gset Socket))
    : gmap string (gset Socket) :=
  foldl (fun us username => alter prune username us) us usernames.

End Registry.

(** The registry after [on_disconnect] has cleared the sockets of a user. *)
Definition cleared (username : string) (us : gmap string (gset Socket))
    : gmap string (gset Socket) :=
  match us !! username with
  | Some _ => <[username := ∅]> us
  | None => us
  end.

(** The registry after [on_connect] has made sure the user has a set. *)
Definition registered (username : string) (us : gmap string (gset Socket))
    : gmap string (gset Socket) :=
  match us !! username with
  | Some _ => us
  | None => <[username := ∅]> us
  end.

(** ** The slug of a name *)

Definition is_digit (c : ascii) : bool :=
  (48 <=? nat_of_ascii c)%nat && (nat_of_ascii c <=? 57)%nat.
Definition is_upper (c : ascii) : bool :=
  (65 <=? nat_of_ascii c)%nat && (nat_of_ascii c <=? 90)%nat.
Definition is_lower (c : ascii) : bool :=
  (97 <=? nat_of_ascii c)%nat && (nat_of_ascii c <=? 122)%nat.
Definition is_alnum (c : ascii) : bool := is_digit c || is_upper c || is_lower c.
Definition to_lower (c : ascii) : ascii :=
  if is_upper c then ascii_of_nat (nat_of_ascii c + 32) else c.

Definition separator : ascii := "-"%char.

(** [pending] records that a run of other characters was passed since the
    last character written. *)
Fixpoint slugify_from (pending : bool) (s : string) : string :=
  match s with
  | EmptyString => if pending then String separator EmptyString else EmptyString
  | String c s' =>
      if is_alnum c then
        let rest := String (to_lower c) (slugify_from false s') in
        if pending then String separator rest else rest
      else slugify_from true s'
  end.

(** Modelled from the spec: [slugify] of the python-slugify package, which
    is imported and not part of the sources.  The spec's words: the slug is
    the name in lowercase with the non-alphanumeric characters collapsed to
    separators.  Letters and digits are the ASCII ones; every maximal run of
    other characters becomes one separator. *)
Definition spec_slugify (room_name : string) : string := slugify_from false room_name.

(** The shape of a slug: lowercase letters, digits and separators, no two
    separators in a row. *)
Definition slug_char (c : ascii) : bool :=
  is_digit c || is_lower c || Ascii.eqb c separator.

Fixpoint collapsed (s : string) : bool :=
  match s with
  | String c1 ((String c2 _) as s') =>
      negb (Ascii.eqb c1 separator && Ascii.eqb c2 separator) && collapsed s'
  | _ => true
  end.

Fixpoint all_chars (p : ascii -> bool) (s : string) : bool :=
  match s with
  | EmptyString => true
  | String c s' => p c && all_chars p s'
  end.

Definition normalized (s : string) : bool := all_chars slug_char s && collapsed s.

(** ** The rest of the database utilities and the chat application *)

(** [ORDER BY chat_rooms.name]: SQLite compares text byte by byte. *)
Definition name_order (a b : ChatRoom.t) : Prop :=
  String_as_OT.compare (ChatRoom.name a) (ChatRoom.name b) <> Gt.

#[global] Instance name_order_dec a b : Decision (name_order a b).
Proof. unfold name_order. apply _. Defined.

(** The join condition of [query(ChatRoom).join(RoomMember)]. *)
Definition joins (user_id : Z) (r : ChatRoom.t) (m : RoomMember.t) : Prop :=
  RoomMember.room_id m = ChatRoom.id r /\ RoomMember.user_id m = user_id.

(** A query for full [ChatRoom] entities returns each room once, however
    many membership rows join it. *)
Definition get_user_rooms (d : DB) (user_id : Z) : list ChatRoom.t :=
  merge_sort name_order
    (filter (fun r => Exists (joins user_id r) (room_members d)) (chat_rooms d)).

(** [db.query(ChatRoom).filter(ChatRoom.id == room_id).first()] *)
Definition room_by_id (d : DB) (room_id : Z) : option ChatRoom.t :=
  head (filter (fun r => ChatRoom.id r = room_id) (chat_rooms d)).

(** [str.strip()]: characters are code points below 256, of which these
    are whitespace. *)
Definition is_space (c : ascii) : bool :=
  let n := nat_of_ascii c in
  ((9 <=? n)%nat && (n <=? 13)%nat) || ((28 <=? n)%nat && (n <=? 32)%nat)
  || (n =? 133)%nat || (n =? 160)%nat.

Fixpoint lstrip (s : string) : string :=
  match s with
  | EmptyString => EmptyString
  | String c s' => if is_space c then lstrip s' else s
  end.

Fixpoint rstrip (s : string) : string :=
  match s with
  | EmptyString => EmptyString
  | String c s' =>
      match rstrip s' with
      | EmptyString => if is_space c then EmptyString else String c EmptyString
      | rest => String c rest
      end
  end.

Definition strip (s : string) : string := rstrip (lstrip s).

(** Truth values of Python: an empty string, [None] and [0] are false. *)
Definition nonempty (s : string) : bool :=
  match s with EmptyString => false | String _ _ => true end.
Definition truthy_str (s : option string) : bool :=
  match s with Some s => nonempty s | None => false end.
Definition truthy_int (z : option Z) : bool :=
  match z with Some z => negb (z =? 0) | None => false end.

(** The state of [ChatApp] that is not a widget.  The widgets themselves
    (message container, room list, input field) are taken to be there, as
    they are once [chat_page] has run. *)
Record ChatApp := mkChatApp {
  current_user : option string;
  current_room : option Z
}.

Section Application.
Variable slugify : string -> string.
Variable pwd_hash : string -> outcome string.
Variable pwd_verify : string -> string -> outcome bool.
Variable get_default_avatar : string -> string.
Variable live : Socket -> bool.

(** [ChatApp.join_new_room]; the room and the membership are inserted at
    the clock readings [now1] and [now2].  [switch_room] makes the room the
    current one. *)
Definition join_new_room (app : ChatApp) (room_name : string) (now1 now2 : datetime)
    (d : DB) : ChatApp * DB :=
  if negb (nonempty (strip room_name)) || negb (truthy_str (current_user app))
  then (app, d)
  else
    match user_by_username d (default EmptyString (current_user app)) with
    | Some user =>
        let created := get_or_create_room slugify d (strip room_name) (User.id user) now1 in
        let room := created.1 in
        (mkChatApp (current_user app) (Some (ChatRoom.id room)),
         join_room created.2 (User.id user) (ChatRoom.id room) now2)
    | None => (app, d)
    end.

(** [user.avatar_url or avatar_manager.get_default_avatar(user.username)] *)
Definition avatar_of (user : User.t) : string :=
  if nonempty (User.avatar_url user) then User.avatar_url user
  else get_default_avatar (User.username user).

(** [ChatApp.send_message] on the text of the input field; the value is
    the text of the field afterwards. *)
Definition send_message (app : ChatApp) (input : string) (now : datetime) : M string :=
  fun w =>
    if negb (truthy_int (current_room app)) || negb (truthy_str (current_user app))
    then (Ok input, w)
    else
      let content := strip input in
      if negb (nonempty content) then (Ok input, w)
      else
        match user_by_username (db w) (default EmptyString (current_user app)),
              room_by_id (db w) (default 0 (current_room app)) with
        | Some user, Some room =>
            let saved := save_message (db w) content (User.id user) (ChatRoom.id room)
                                      "text" now in
            let message := saved.1 in
            let message_data :=
              new_message (Message.id message) content (User.username user)
                          (ChatRoom.id room) (Message.created_at message)
                          (avatar_of user) in
            (broadcast_to_room live (ChatRoom.id room) message_data ;; ret EmptyString)%chat
              (set_db saved.2 w)
        | _, _ => (Ok input, w)
        end.

(** How [handle_register] ends: the success label, or one of the error
    labels. *)
Inductive registration :=
| Registered (user : User.t)
| MissingFields          (* Please fill in all required fields *)
| PasswordMismatch       (* Passwords do not match *)
| PasswordTooShort       (* Password must be at least 6 characters *)
| AlreadyExists          (* Username or email already exists *)
| RegistrationFailed (e : exn).

Definition handle_register (username email full_name password confirm_password : string)
    (last_seen_now created_at_now : datetime) (d : DB) : registration * DB :=
  if negb (nonempty username && nonempty email && nonempty password)
  then (MissingFields, d)
  else if negb (String.eqb password confirm_password) then (PasswordMismatch, d)
  else if (String.length password <? 6)%nat then (PasswordTooShort, d)
  else
    match head (filter (fun u => User.username u = username \/ User.email u = email)
                       (users d)) with
    | Some existing_user => (AlreadyExists, d)
    | None =>
        match create_user pwd_hash get_default_avatar d username email password
                          (Some full_name) last_seen_now created_at_now with
        | (Ok user, d') => (Registered user, d')
        | (Raise e, d') => (RegistrationFailed e, d')
        end
    end.

End Application.

(** ** Sessions *)

(** [app.storage.user] of one browser: the keys the pages use. *)
Record Storage := mkStorage {
  stored_session_id : option string;
  stored_username : option string
}.

(** The world together with the global [active_sessions]. *)
Record Site := mkSite {
  world : World;
  active_sessions : gmap string string
}.

Section Sessions.
Variable pwd_verify : string -> string -> outcome bool.
Variable live : Socket -> bool.

(** [handle_login] with the form values; [session_id] is the string of the
    UUID drawn.  The value is the storage of the browser afterwards and
    whether the page moves on to the chat ([false]: the error label); when
    the handler raises, the storage is the one the browser had. *)
Definition handle_login (username password session_id : string) (now : datetime)
    (storage : Storage) (site : Site) : outcome (Storage * bool) * Site :=
  match authenticate_user pwd_verify (db (world site)) username password with
  | Raise e => (Raise e, site)
  | Ok (Some user) =>
      let sessions := <[session_id := User.username user]> (active_sessions site) in
      let storage' := mkStorage (Some session_id) (Some (User.username user)) in
      match update_user_status live (User.username user) true now (world site) with
      | (Ok _, w') => (Ok (storage', true), mkSite w' sessions)
      | (Raise e, w') => (Raise e, mkSite w' sessions)
      end
  | Ok None => (Ok (storage, false), site)
  end.

(** The check at the top of [chat_page]: [true] when the page is built,
    [false] when the browser is sent to the login page. *)
Definition chat_page_admits (storage : Storage) (site : Site) : bool :=
  match stored_session_id storage with
  | Some session_id =>
      nonempty session_id
      && match active_sessions site !! session_id with
         | Some username => bool_decide (stored_username storage = Some username)
         | None => false
         end
  | None => false
  end.

(** The logout button of a page built for [session_id]:
    [active_sessions.pop(session_id, None)] and [app.storage.user.clear()]. *)
Definition logout (session_id : string) (site : Site) : Storage * Site :=
  (mkStorage None None, mkSite (world site) (delete session_id (active_sessions site))).

(** What [chat_page] does to the one global [chat_app]: a browser that
    passes the check becomes its current user. *)
Definition chat_page (storage : Storage) (site : Site) (app : ChatApp) : ChatApp :=
  if chat_page_admits storage site
  then mkChatApp (stored_username storage) (current_room app)
  else app.

End Sessions.

(** ** The avatar manager *)

Module AvatarManager.

(** The cache, the files under [uploads/avatars], and the URLs requested
    so far. *)
Record t := mk {
  avatar_cache : gmap string string;
  files : gmap string string;
  requested : list string
}.

Section Fetch.
(** [hashlib.md5(...).hexdigest()], [requests.get] (status code and body,
    [None] when it raises), and whether a file can be written. *)
Variable md5_hexdigest : string -> string.
Variable http_get : string -> option (nat * string).
Variable writable : string -> bool.

Definition fallback_url (username : string) : string :=
  "https://ui-avatars.com/api/?name=" +:+ username
  +:+ "&background=0084ff&color=fff&size=150".

Definition portrait_url (username : string) : string :=
  "https://source.unsplash.com/150x150/?portrait,professional&sig="
  +:+ substring 0 8 (md5_hexdigest username).

Definition local_url (username : string) : string :=
  "/uploads/avatars/default_" +:+ username +:+ ".jpg".

Definition local_path (username : string) : string :=
  "uploads/avatars/default_" +:+ username +:+ ".jpg".

Definition use_fallback (username : string) (am : t) : string * t :=
  (fallback_url username,
   mk (<[username := fallback_url username]> (avatar_cache am)) (files am) (requested am)).

Definition get_default_avatar (username : string) (am : t) : string * t :=
  match avatar_cache am !! username with
  | Some avatar_url => (avatar_url, am)
  | None =>
      let am1 := mk (avatar_cache am) (files am) (requested am ++ [portrait_url username]) in
      match http_get (portrait_url username) with
      | Some (status_code, content) =>
          if (status_code =? 200)%nat && writable (local_path username) then
            (local_url username,
             mk (<[username := local_url username]> (avatar_cache am1))
                (<[local_path username := content]> (files am1)) (requested am1))
          else use_fallback username am1
      | None => use_fallback username am1
      end
  end.

End Fetch.
End AvatarManager.

(** The constraints of the schema: primary keys and UNIQUE columns. *)
Record constraints (d : DB) : Prop := mkConstraints {
  user_ids_unique : NoDup (User.id <$> users d);
  user_names_unique : usernames_unique d;
  user_emails_unique : NoDup (User.email <$> users d);
  room_ids_unique : NoDup (ChatRoom.id <$> chat_rooms d);
  room_slugs_unique : slugs_unique d;
  member_ids_unique : NoDup (RoomMember.id <$> room_members d);
  message_ids_unique : NoDup (Message.id <$> messages d)
}.

(** A socket somewhere in the registry. *)
Definition registered_socket (us : gmap string (gset Socket)) (s : Socket) : Prop :=
  exists username sockets, us !! username = Some sockets /\ s ∈ sockets.

(** The columns of a user row that no presence update writes. *)
Definition account (u : User.t) :=
  (User.id u, User.username u, User.email u, User.hashed_password u,
   User.full_name u, User.avatar_url u, User.created_at u).

(** [d'] holds everything [d] holds, in the same place: rooms, memberships
    and messages as they were, users up to [is_online] and [last_seen]. *)
Record grown_from (d d' : DB) : Prop := mkGrown {
  accounts_kept : (account <$> users d) `prefix_of` (account <$> users d');
  rooms_kept : chat_rooms d `prefix_of` chat_rooms d';
  members_kept : room_members d `prefix_of` room_members d';
  messages_kept : messages d `prefix_of` messages d'
}.

(** ** A small deployment *)

(** Stand-ins for the password context, which like bcrypt refuses a
    password with a NUL character, and for the avatar manager, and two
    transports: one on which every send goes through, one on which socket 9
    is closed. *)
Fixpoint has_nul (s : string) : bool :=
  match s with
  | EmptyString => false
  | String c s' => Ascii.eqb c Ascii.zero || has_nul s'
  end.
Definition example_digest (password : string) : string := "bcrypt:" +:+ password.
Definition example_hash (password : string) : outcome string :=
  if has_nul password then Raise PasswordValueError else Ok (example_digest password).
Definition example_verify (password hashed : string) : outcome bool :=
  if has_nul password then Raise PasswordValueError
  else Ok (String.eqb hashed (example_digest password)).
(** A password with a NUL character in it. *)
Definition nul_password : string :=
  String "s" (String "3" (String Ascii.zero (String "c" EmptyString))).
Definition example_avatar (username : string) : string :=
  "/uploads/avatars/default_" +:+ username.
Definition all_live (s : Socket) : bool := true.
Definition socket_9_closed (s : Socket) : bool := negb (Nat.eqb s 9).

Definition alice : User.t :=
  User.mk 1 "alice" "alice@example.org" (example_digest "secret1") "alice"
          (example_avatar "alice") false 100 100.
Definition bob : User.t :=
  User.mk 2 "bob" "bob@example.org" (example_digest "secret2") "Bob"
          (example_avatar "bob") false 110 110.
Definition team_chat : ChatRoom.t :=
  ChatRoom.mk 1 "Team Chat" "team-chat" None 1 120 false.
Definition alice_in_team_chat : RoomMember.t := RoomMember.mk 1 1 1 121 false.
Definition bob_in_team_chat : RoomMember.t := RoomMember.mk 2 1 2 131 false.
Definition row_m1 : Message.t := Message.mk 1 "m1" 1 1 "text" None 140 false None.
Definition row_m2 : Message.t := Message.mk 2 "m2" 1 1 "text" None 141 false None.

Definition example_db : DB :=
  mkDB [alice; bob] [team_chat] [alice_in_team_chat; bob_in_team_chat] [row_m1; row_m2].

(** Alice has one connection, Bob has two. *)
Definition example_sockets : gmap string (gset Socket) :=
  {[ "alice"%string := {[ 3%nat ]}; "bob"%string := {[ 7%nat; 9%nat ]} ]}.

Definition example_world : World := mkWorld example_db example_sockets [].

(** The calls that lead there from an empty database. *)
Definition example_calls : list (call * datetime) :=
  [ (CreateUser "alice" "alice@example.org" "secret1" None 100, 100);
    (CreateUser "bob" "bob@example.org" "secret2" (Some "Bob"%string) 110, 110);
    (GetOrCreateRoom "Team Chat" 1, 120);
    (JoinRoom 1 1, 121);
    (GetOrCreateRoom "team chat" 2, 130);
    (JoinRoom 2 1, 131);
    (JoinRoom 2 1, 132);
    (SaveMessage "m1" 1 1 "text", 140);
    (SaveMessage "m2" 1 1 "text", 141) ].

(** Alice's chat page with the team chat open, a third account, and the
    storage of browsers that have logged in as Alice and as Bob. *)
Definition alice_app : ChatApp := mkChatApp (Some "alice"%string) (Some 1).
Definition carol : User.t :=
  User.mk 3 "carol" "carol@example.org" (example_digest "secret3") "Carol"
          (example_avatar "carol") false 200 201.
Definition alice_storage : Storage :=
  mkStorage (Some "session-1"%string) (Some "alice"%string).
Definition example_site : Site := mkSite example_world ∅.
Definition start_world : World := mkWorld empty_db example_sockets [].
Definition bob_storage : Storage :=
  mkStorage (Some "session-2"%string) (Some "bob"%string).
Definition two_sessions_site : Site :=
  mkSite example_world
    {[ "session-1"%string := "alice"%string; "session-2"%string := "bob"%string ]}.

(** * Properties *)

(** ** Rooms *)

(** A column without duplicates identifies the row. *)
Lemma NoDup_fmap_eq {A B} (f : A -> B) (l : list A) x y :
  NoDup (f <$> l) -> x ∈ l -> y ∈ l -> f x = f y -> x = y.
Proof.
  induction l as [|a l IH]; [by intros _ ?%elem_of_nil|].
  rewrite fmap_cons, NoDup_cons. intros [Hnotin Hnd].
  intros [->|Hx]%elem_of_cons [->|Hy]%elem_of_cons Heq; [done|..].
  - destruct Hnotin. rewrite Heq. by apply list_elem_of_fmap_2.
  - destruct Hnotin. rewrite <- Heq. by apply list_elem_of_fmap_2.
  - by apply IH.
Qed.

Lemma room_by_slug_Some d s room :
  room_by_slug d s = Some room -> room ∈ chat_rooms d /\ ChatRoom.slug room = s.
Proof.
  intros H. apply head_Some_elem_of, list_elem_of_filter in H. tauto.
Qed.

Lemma room_by_slug_None d s : room_by_slug d s = None <-> rooms_with_slug d s = [].
Proof. apply head_None. Qed.

Lemma room_by_slug_is_Some d s room :
  room ∈ chat_rooms d -> ChatRoom.slug room = s -> is_Some (room_by_slug d s).
Proof.
  intros Hin Hs. apply head_is_Some. intros Hnil.
  by apply (filter_nil_not_elem_of _ (chat_rooms d) room Hnil).
Qed.

(** A lookup that finds nothing is followed by an insert, after which the
    same lookup finds the new row. *)
Lemma room_by_slug_after_insert d s room :
  room_by_slug d s = None -> ChatRoom.slug room = s ->
  room_by_slug (mkDB (users d) (chat_rooms d ++ [room]) (room_members d) (messages d)) s
  = Some room.
Proof.
  intros Hnone Hs. apply room_by_slug_None in Hnone.
  unfold room_by_slug, rooms_with_slug in *. simpl.
  rewrite filter_app, Hnone. simpl. by rewrite filter_cons_True.
Qed.

Section RoomFacts.
Variable slugify : string -> string.

Lemma get_or_create_room_found d room_name created_by now room :
  room_by_slug d (slugify room_name) = Some room ->
  get_or_create_room slugify d room_name created_by now = (room, d).
Proof. intros H. unfold get_or_create_room. by rewrite H. Qed.

Lemma get_or_create_room_slug d room_name created_by now :
  ChatRoom.slug (get_or_create_room slugify d room_name created_by now).1
  = slugify room_name.
Proof.
  unfold get_or_create_room.
  destruct (room_by_slug d (slugify room_name)) as [room|] eqn:E; simpl; [|done].
  by apply room_by_slug_Some in E as [_ ?].
Qed.

(** After the call the room of that slug is there, and the next lookup
    returns the room the call returned. *)
Lemma get_or_create_room_lookup d room_name created_by now :
  let (room, d') := get_or_create_room slugify d room_name created_by now in
  room_by_slug d' (slugify room_name) = Some room.
Proof.
  unfold get_or_create_room.
  destruct (room_by_slug d (slugify room_name)) as [room|] eqn:E; [done|].
  by apply room_by_slug_after_insert.
Qed.

Lemma get_or_create_room_count d room_name created_by now :
  length (rooms_with_slug (get_or_create_room slugify d room_name created_by now).2
                          (slugify room_name))
  = Nat.max 1 (length (rooms_with_slug d (slugify room_name))).
Proof.
  unfold get_or_create_room.
  destruct (room_by_slug d (slugify room_name)) as [room|] eqn:E; simpl.
  - apply head_Some in E as [l' E]. unfold rooms_with_slug. rewrite E. simpl. lia.
  - apply room_by_slug_None in E. unfold rooms_with_slug in *. simpl.
    rewrite filter_app, E. simpl. by rewrite filter_cons_True.
Qed.

(** C2: two names with the same slug, given to [get_or_create_room] one
    after the other (whichever comes first), yield rooms with the same id;
    the second call leaves the database as the first left it, which then
    holds as many rooms of that slug as before, and one if there was
    none. *)
Theorem get_or_create_room_same_slug d name1 name2 creator1 creator2 now1 now2 :
  slugify name1 = slugify name2 ->
  let first := get_or_create_room slugify d name1 creator1 now1 in
  let second := get_or_create_room slugify first.2 name2 creator2 now2 in
  ChatRoom.id second.1 = ChatRoom.id first.1
  /\ second.1 = first.1
  /\ second.2 = first.2
  /\ length (rooms_with_slug second.2 (slugify name1))
     = Nat.max 1 (length (rooms_with_slug d (slugify name1))).
Proof.
  intros Hslug first second.
  pose proof (get_or_create_room_lookup d name1 creator1 now1) as Hlook.
  pose proof (get_or_create_room_count d name1 creator1 now1) as Hcount.
  fold first in Hcount. subst second.
  destruct (get_or_create_room slugify d name1 creator1 now1) as [room d'] eqn:E.
  subst first. simpl in *.
  rewrite Hslug in Hlook.
  rewrite (get_or_create_room_found _ _ _ _ _ Hlook). simpl.
  by rewrite Hcount.
Qed.

(** C10: when a room with the slug of the name is stored, the call returns
    a stored row of that slug as it is and does not touch the database;
    with slugs unique it is that very room, whatever name and creator were
    passed. *)
Theorem get_or_create_room_existing d room_name created_by now room :
  room ∈ chat_rooms d ->
  ChatRoom.slug room = slugify room_name ->
  exists stored,
    get_or_create_room slugify d room_name created_by now = (stored, d)
    /\ stored ∈ chat_rooms d
    /\ ChatRoom.slug stored = slugify room_name
    /\ (slugs_unique d -> stored = room).
Proof.
  intros Hin Hs.
  destruct (room_by_slug_is_Some d _ room Hin Hs) as [stored E].
  exists stored. pose proof (room_by_slug_Some _ _ _ E) as [Hin' Hs'].
  split; [by apply get_or_create_room_found|].
  repeat split; [done..|].
  intros Huniq.
  apply (NoDup_fmap_eq ChatRoom.slug (chat_rooms d)); [exact Huniq|done..|congruence].
Qed.

End RoomFacts.

(** ** Slugs *)

Lemma to_lower_slug_char c : is_alnum c = true -> slug_char (to_lower c) = true.
Proof.
  destruct c as [[] [] [] [] [] [] [] []]; vm_compute; congruence.
Qed.

Lemma to_lower_not_separator c :
  is_alnum c = true -> Ascii.eqb (to_lower c) separator = false.
Proof.
  destruct c as [[] [] [] [] [] [] [] []]; vm_compute; congruence.
Qed.

Lemma collapsed_cons c s :
  Ascii.eqb c separator = false -> collapsed (String c s) = collapsed s.
Proof. intros Hc. destruct s; simpl; [done|]. by rewrite Hc. Qed.

Lemma collapsed_separator c s :
  Ascii.eqb c separator = false ->
  collapsed (String separator (String c s)) = collapsed (String c s).
Proof. intros Hc. cbn [collapsed]. by rewrite Hc, andb_false_r. Qed.

Lemma slugify_from_chars pending s :
  all_chars slug_char (slugify_from pending s) = true.
Proof.
  revert pending. induction s as [|c s IH]; intros pending; simpl.
  - by destruct pending.
  - destruct (is_alnum c) eqn:Hc; [|apply IH].
    destruct pending; simpl; by rewrite to_lower_slug_char, IH.
Qed.

Lemma slugify_from_collapsed pending s :
  collapsed (slugify_from pending s) = true.
Proof.
  revert pending. induction s as [|c s IH]; intros pending; simpl.
  - by destruct pending.
  - destruct (is_alnum c) eqn:Hc; [|apply IH].
    pose proof (to_lower_not_separator c Hc) as Hsep.
    destruct pending.
    + by rewrite collapsed_separator, collapsed_cons.
    + by rewrite collapsed_cons.
Qed.

Lemma spec_slugify_normalized room_name : normalized (spec_slugify room_name) = true.
Proof.
  unfold normalized, spec_slugify.
  by rewrite slugify_from_chars, slugify_from_collapsed.
Qed.

Example spec_slugify_team_chat : spec_slugify "Team Chat" = "team-chat"%string.
Proof. reflexivity. Qed.

(** C8: the room that [get_or_create_room] returns for a name, found or
    created, carries the slug of that name; the slug is the name in
    lowercase letters and digits with every run of other characters
    collapsed to one separator. *)
Theorem get_or_create_room_slug_normalized d room_name created_by now :
  let room := (get_or_create_room spec_slugify d room_name created_by now).1 in
  ChatRoom.slug room = spec_slugify room_name
  /\ normalized (ChatRoom.slug room) = true.
Proof.
  intros room. subst room.
  rewrite get_or_create_room_slug. split; [done|]. apply spec_slugify_normalized.
Qed.

(** ** Credentials *)

Lemma user_by_username_Some d username user :
  user_by_username d username = Some user ->
  user ∈ users d /\ User.username user = username.
Proof.
  intros H. apply head_Some_elem_of, list_elem_of_filter in H. tauto.
Qed.

Lemma user_by_username_None d username user :
  user_by_username d username = None -> user ∈ users d ->
  User.username user <> username.
Proof.
  intros H Hin Hname. apply head_None in H.
  by apply (filter_nil_not_elem_of _ (users d) user H).
Qed.

Lemma user_by_username_unique d username user :
  usernames_unique d -> user ∈ users d -> User.username user = username ->
  user_by_username d username = Some user.
Proof.
  intros Huniq Hin Hname.
  destruct (user_by_username d username) as [found|] eqn:E.
  - apply user_by_username_Some in E as [Hin' Hname'].
    f_equal.
    apply (NoDup_fmap_eq User.username (users d)); [exact Huniq|done..|congruence].
  - by destruct (user_by_username_None _ _ _ E Hin).
Qed.

Section AuthFacts.
Variable pwd_verify : string -> string -> outcome bool.

(** An unknown username is answered without a call of [verify]. *)
Lemma authenticate_user_unknown d username password :
  user_by_username d username = None ->
  authenticate_user pwd_verify d username password = Ok None.
Proof. intros H. unfold authenticate_user. by rewrite H. Qed.

(** For a stored username, what [verify] raises leaves the function. *)
Lemma authenticate_user_raises d username password user e :
  user_by_username d username = Some user ->
  pwd_verify password (User.hashed_password user) = Raise e ->
  authenticate_user pwd_verify d username password = Raise e.
Proof. intros H Hv. unfold authenticate_user. by rewrite H, Hv. Qed.

(** As long as [verify] returns: with usernames unique, the result is a
    user exactly when that user is stored under the username and the
    password verifies against the stored hash, and [None] when [verify]
    says no for the stored user. *)
Lemma authenticate_user_spec d username password :
  usernames_unique d ->
  (forall user,
      authenticate_user pwd_verify d username password = Ok (Some user)
      <-> user ∈ users d /\ User.username user = username
          /\ pwd_verify password (User.hashed_password user) = Ok true)
  /\ ((forall user, user ∈ users d -> User.username user = username ->
         pwd_verify password (User.hashed_password user) = Ok false)
      -> authenticate_user pwd_verify d username password = Ok None).
Proof.
  intros Huniq. split.
  - intros user. unfold authenticate_user. split.
    + destruct (user_by_username d username) as [found|] eqn:E; [|done].
      apply user_by_username_Some in E as [Hin Hname].
      destruct (pwd_verify password (User.hashed_password found)) as [[]|] eqn:Hv;
        simpl; [|done..].
      intros [= <-]. done.
    + intros (Hin & Hname & Hv).
      rewrite (user_by_username_unique _ _ _ Huniq Hin Hname), Hv. done.
  - intros Hfail. unfold authenticate_user.
    destruct (user_by_username d username) as [found|] eqn:E; [|done].
    apply user_by_username_Some in E as [Hin Hname].
    by rewrite (Hfail _ Hin Hname).
Qed.

End AuthFacts.

(** C7: the code does not keep to one failure value.  For the stored
    username of Alice a password with a NUL character makes [verify] raise,
    and the exception leaves [authenticate_user]; for a username that is
    not stored the same password gives [None], since [verify] is not
    called.  The two answers tell a stored username from an unknown one. *)
Theorem authenticate_user_tells_usernames_apart :
  user_by_username example_db "alice" = Some alice
  /\ user_by_username example_db "mallory" = None
  /\ authenticate_user example_verify example_db "alice" nul_password
     = Raise PasswordValueError
  /\ authenticate_user example_verify example_db "mallory" nul_password = Ok None.
Proof. vm_compute. auto. Qed.

(** ** Recent messages *)

#[local] Instance newer_first_transitive : Transitive newer_first.
Proof. unfold newer_first. intros a b c ??. lia. Qed.

#[local] Instance newer_first_total : Total newer_first.
Proof. unfold newer_first. intros a b. lia. Qed.

Lemma room_messages_sorted d room_id :
  StronglySorted newer_first
    (merge_sort newer_first
       (filter (fun m => Message.room_id m = room_id) (messages d))).
Proof. apply StronglySorted_merge_sort; apply _. Qed.

Lemma elem_of_room_messages d room_id m :
  m ∈ merge_sort newer_first
        (filter (fun m => Message.room_id m = room_id) (messages d))
  <-> Message.room_id m = room_id /\ m ∈ messages d.
Proof. by rewrite merge_sort_Permutation, list_elem_of_filter. Qed.

Lemma get_room_messages_length d room_id limit :
  (length (get_room_messages d room_id limit) <= limit)%nat.
Proof. unfold get_room_messages. rewrite length_take. lia. Qed.

Lemma get_room_messages_elem_of d room_id limit m :
  m ∈ get_room_messages d room_id limit ->
  m ∈ messages d /\ Message.room_id m = room_id.
Proof.
  unfold get_room_messages. intros H.
  apply elem_of_take in H as (i & Hi & _).
  apply list_elem_of_lookup_2, elem_of_room_messages in Hi. tauto.
Qed.

(** The limit cuts the oldest rows: with a message, every newer message of
    the room is returned, and before it. *)
Lemma get_room_messages_newer d room_id limit m1 m2 :
  m1 ∈ get_room_messages d room_id limit ->
  m2 ∈ messages d -> Message.room_id m2 = room_id ->
  Message.created_at m1 < Message.created_at m2 ->
  precedes m2 m1 (get_room_messages d room_id limit).
Proof.
  unfold get_room_messages.
  set (rows := merge_sort newer_first _).
  intros H1 H2 Hroom Hlt.
  assert (Hsorted : StronglySorted newer_first (take limit rows ++ drop limit rows)).
  { rewrite take_drop. apply room_messages_sorted. }
  assert (H2' : m2 ∈ take limit rows).
  { assert (m2 ∈ take limit rows ++ drop limit rows) as Hin.
    { rewrite take_drop. by apply elem_of_room_messages. }
    apply elem_of_app in Hin as [Hin|Hin]; [done|].
    pose proof (StronglySorted_app_1_elem_of _ _ _ _ _ Hsorted H1 Hin) as Hle.
    unfold newer_first in Hle. lia. }
  apply StronglySorted_app_1_l in Hsorted.
  apply list_elem_of_split in H1 as (a & b & Hsplit).
  rewrite Hsplit in H2', Hsorted.
  apply elem_of_app in H2' as [Hin|Hin].
  - apply list_elem_of_split in Hin as (a1 & a2 & ->).
    exists a1, a2, b. rewrite Hsplit. by rewrite <- app_assoc.
  - apply elem_of_cons in Hin as [->|Hin]; [lia|].
    apply StronglySorted_app_1_r, StronglySorted_cons in Hsorted as [Hall _].
    rewrite Forall_forall in Hall. apply Hall in Hin.
    unfold newer_first in Hin. lia.
Qed.

(** Two messages saved to one room, the second at a later clock reading:
    whenever the first is shown, it is shown before the second. *)
Lemma save_message_twice_in_order d content1 content2 sender1 sender2 room_id
    type1 type2 now1 now2 limit :
  now1 < now2 ->
  let first := save_message d content1 sender1 room_id type1 now1 in
  let second := save_message first.2 content2 sender2 room_id type2 now2 in
  first.1 ∈ get_room_messages second.2 room_id limit ->
  precedes second.1 first.1 (get_room_messages second.2 room_id limit).
Proof.
  intros Hlt first second Hin.
  apply get_room_messages_newer; [done| |done|done].
  subst second. simpl. apply elem_of_app. right. apply list_elem_of_here.
Qed.

Lemma precedes_reverse {A} (x y : A) l : precedes x y l -> precedes y x (reverse l).
Proof.
  intros (l1 & l2 & l3 & ->). exists (reverse l3), (reverse l2), (reverse l1).
  rewrite reverse_app, reverse_cons, reverse_app, reverse_cons.
  by rewrite <- !app_assoc.
Qed.

(** C5, as the code has it: the rows are ordered by their timestamps, not
    by the order in which they were appended.  A message of a room whose
    [created_at] is strictly earlier than that of another message of the
    room comes before it in the oldest-first view of [get_room_messages]
    whenever it is in that view (the later one then is too); the view has
    at most [limit] messages, all of them rows of the queried room, and
    holds every message of the room when there are no more than [limit]. *)
Theorem recent_messages_in_creation_order d room_id limit m1 m2 :
  m1 ∈ messages d -> m2 ∈ messages d ->
  Message.room_id m1 = room_id -> Message.room_id m2 = room_id ->
  Message.created_at m1 < Message.created_at m2 ->
  let view := reverse (get_room_messages d room_id limit) in
  (length view <= limit)%nat
  /\ (forall m, m ∈ view -> m ∈ messages d /\ Message.room_id m = room_id)
  /\ (m1 ∈ view -> precedes m1 m2 view)
  /\ ((length (filter (fun m => Message.room_id m = room_id) (messages d)) <= limit)%nat
      -> precedes m1 m2 view).
Proof.
  intros Hin1 Hin2 Hr1 Hr2 Hlt view. subst view.
  assert (Hone : m1 ∈ reverse (get_room_messages d room_id limit) ->
                 precedes m1 m2 (reverse (get_room_messages d room_id limit))).
  { rewrite elem_of_reverse. intros H1.
    by apply precedes_reverse, get_room_messages_newer. }
  split; [rewrite length_reverse; apply get_room_messages_length|].
  split; [intros m; rewrite elem_of_reverse; apply get_room_messages_elem_of|].
  split; [exact Hone|].
  intros Hfew. apply Hone. rewrite elem_of_reverse.
  unfold get_room_messages. rewrite take_ge.
  - by apply elem_of_room_messages.
  - by rewrite merge_sort_Permutation.
Qed.

(** Two messages appended to one room at the same clock reading: the one
    appended second is shown first in the oldest-first view, and with a
    limit of 1 it is the one appended second that is left out. *)
Lemma equal_timestamps_out_of_order :
  let first := save_message empty_db "m1" 1 1 "text" 140 in
  let second := save_message first.2 "m2" 1 1 "text" 140 in
  Message.created_at first.1 = Message.created_at second.1
  /\ reverse (get_room_messages second.2 1 50) = [second.1; first.1]
  /\ ~ precedes first.1 second.1 (reverse (get_room_messages second.2 1 50))
  /\ reverse (get_room_messages second.2 1 1) = [first.1].
Proof.
  intros first second.
  assert (Hview : reverse (get_room_messages second.2 1 50) = [second.1; first.1])
    by (vm_compute; reflexivity).
  split; [reflexivity|]. split; [exact Hview|]. split; [|vm_compute; reflexivity].
  rewrite Hview. intros (l1 & l2 & l3 & Heq).
  destruct l1 as [|a [|b l1]]; simpl in Heq.
  - injection Heq as Hhead _. vm_compute in Hhead. discriminate.
  - injection Heq as _ Htail. destruct l2; discriminate.
  - injection Heq as _ _ Htail. destruct l1; discriminate.
Qed.

(** ** Sending to sockets *)

Section TransportFacts.
Variable live : Socket -> bool.

Lemma world_eq (w : World) : mkWorld (db w) (user_sockets w) (sent w) = w.
Proof. by destruct w. Qed.

Lemma deliver_live username data s w :
  live s = true ->
  deliver live username data s w = (Ok tt, set_sent (sent w ++ [(s, data)]) w).
Proof. intros H. unfold deliver, try_except, send. by rewrite H. Qed.

Lemma deliver_failed username data s w :
  live s = false ->
  deliver live username data s w
  = (Ok tt, set_user_sockets
              (alter (fun sockets => sockets ∖ {[s]}) username (user_sockets w)) w).
Proof. intros H. unfold deliver, try_except, send. by rewrite H. Qed.

(** The inner loop: every live socket of the list is sent the data once,
    in order; the failing ones leave the set of the user. *)
Lemma for_each_deliver username data l w :
  for_each l (deliver live username data) w
  = (Ok tt,
     mkWorld (db w)
       (alter (fun sockets => sockets ∖ failed live l) username (user_sockets w))
       (sent w ++ ((fun s => (s, data)) <$> filter (fun s => live s = true) l))).
Proof.
  revert w. induction l as [|s l IH]; intros w.
  - simpl. unfold ret. f_equal. destruct w as [d us log]. simpl. f_equal.
    + symmetry. apply alter_id. intros sockets _. unfold failed. set_solver.
    + by rewrite app_nil_r.
  - cbn [for_each]. unfold bind at 1.
    destruct (live s) eqn:Hs.
    + rewrite deliver_live by done. rewrite IH. simpl. f_equal. f_equal.
      * apply alter_ext. intros sockets _. unfold failed.
        rewrite filter_cons_False by congruence. done.
      * rewrite filter_cons_True by done. rewrite fmap_cons.
        by rewrite <- app_assoc.
    + rewrite deliver_failed by done. rewrite IH. simpl. f_equal. f_equal.
      * rewrite alter_alter_eq. apply alter_ext. intros sockets _. unfold failed.
        rewrite filter_cons_True by done. simpl. set_solver.
      * rewrite filter_cons_False by congruence. done.
Qed.

Lemma difference_failed_elements (sockets : gset Socket) :
  sockets ∖ failed live (elements sockets) = prune live sockets.
Proof.
  apply set_eq. intros s. unfold failed, prune.
  rewrite elem_of_difference, elem_of_filter, elem_of_list_to_set,
    list_elem_of_filter, elem_of_elements.
  destruct (live s); naive_solver.
Qed.

Lemma notify_spec data username w :
  notify live data username w
  = (Ok tt,
     mkWorld (db w) (alter (prune live) username (user_sockets w))
       (sent w ++ ((fun s => (s, data)) <$> recipients_of live (user_sockets w) username))).
Proof.
  unfold notify, recipients_of.
  destruct (user_sockets w !! username) as [sockets|] eqn:E.
  - rewrite for_each_deliver. simpl. f_equal. f_equal.
    apply alter_ext. intros x Hx. rewrite E in Hx. injection Hx as <-.
    apply difference_failed_elements.
  - simpl. rewrite elements_empty. simpl. rewrite app_nil_r.
    rewrite alter_id by (intros x Hx; congruence).
    by rewrite world_eq.
Qed.

(** The outer loop over usernames. *)
Lemma for_each_notify data usernames w :
  for_each usernames (notify live data) w
  = (Ok tt,
     mkWorld (db w) (prune_all live usernames (user_sockets w))
       (sent w ++ ((fun s => (s, data)) <$> recipients live usernames (user_sockets w)))).
Proof.
  revert w. induction usernames as [|username rest IH]; intros w.
  - simpl. unfold ret. by rewrite app_nil_r, world_eq.
  - cbn [for_each]. unfold bind at 1. rewrite notify_spec, IH. simpl.
    by rewrite fmap_app, app_assoc.
Qed.

Lemma for_each_fmap {A B} (f : A -> B) (body : B -> M unit) (l : list A) w :
  for_each l (fun x => body (f x)) w = for_each (f <$> l) body w.
Proof.
  revert w. induction l as [|x l IH]; intros w; [done|].
  cbn [for_each fmap list_fmap]. unfold bind. by destruct (body (f x) w) as [[] ?].
Qed.

(** *** The registry after the loops *)

Lemma prune_idemp (sockets : gset Socket) :
  prune live (prune live sockets) = prune live sockets.
Proof. apply set_eq. intros s. unfold prune. rewrite !elem_of_filter. tauto. Qed.

Lemma elem_of_prune (sockets : gset Socket) s :
  s ∈ prune live sockets <-> live s = true /\ s ∈ sockets.
Proof. unfold prune. by rewrite elem_of_filter. Qed.

Lemma lookup_prune_all usernames (us : gmap string (gset Socket)) k :
  prune_all live usernames us !! k
  = if decide (k ∈ usernames) then prune live <$> us !! k else us !! k.
Proof.
  revert us. induction usernames as [|username rest IH]; intros us.
  - by rewrite decide_False by apply not_elem_of_nil.
  - unfold prune_all in *. cbn [foldl]. rewrite IH.
    destruct (decide (k = username)) as [->|Hne].
    + rewrite lookup_alter_eq.
      rewrite (decide_True (P := username ∈ username :: rest)) by apply list_elem_of_here.
      case_decide; [|done].
      destruct (us !! username); simpl; [|done]. by rewrite prune_idemp.
    + rewrite lookup_alter_ne by done.
      case_decide as Hin.
      * by rewrite decide_True by (by apply list_elem_of_further).
      * rewrite decide_False; [done|].
        intros [?|?]%elem_of_cons; done.
Qed.

(** *** Who is reached *)

Lemma elem_of_recipients_of (us : gmap string (gset Socket)) username s :
  s ∈ recipients_of live us username
  <-> live s = true /\ exists sockets, us !! username = Some sockets /\ s ∈ sockets.
Proof.
  unfold recipients_of. rewrite list_elem_of_filter, elem_of_elements.
  destruct (us !! username) as [sockets|]; simpl.
  - naive_solver.
  - split; [set_solver|]. intros [_ (? & ? & _)]. done.
Qed.

Lemma live_socket_after_prune (us : gmap string (gset Socket)) visited username s :
  live s = true ->
  (exists sockets, alter (prune live) visited us !! username = Some sockets /\ s ∈ sockets)
  <-> (exists sockets, us !! username = Some sockets /\ s ∈ sockets).
Proof.
  intros Hs. destruct (decide (visited = username)) as [->|Hne].
  - rewrite lookup_alter_eq. destruct (us !! username) as [sockets|]; simpl.
    + split.
      * intros (? & [= <-] & Hin). apply elem_of_prune in Hin. naive_solver.
      * intros (? & [= <-] & Hin). eexists. split; [done|]. by apply elem_of_prune.
    + naive_solver.
  - by rewrite lookup_alter_ne.
Qed.

Lemma elem_of_recipients usernames (us : gmap string (gset Socket)) s :
  s ∈ recipients live usernames us
  <-> live s = true
      /\ exists username sockets,
           username ∈ usernames /\ us !! username = Some sockets /\ s ∈ sockets.
Proof.
  revert us. induction usernames as [|username rest IH]; intros us.
  - simpl. split; [by intros ?%elem_of_nil|].
    by intros (_ & ? & ? & ?%elem_of_nil & _).
  - cbn [recipients]. rewrite elem_of_app, elem_of_recipients_of, IH. split.
    + intros [(Hs & sockets & Hl & Hin)|(Hs & u & sockets & Hu & Hl)].
      * split; [done|]. exists username, sockets. by rewrite elem_of_cons; auto.
      * split; [done|].
        destruct (proj1 (live_socket_after_prune us username u s Hs)) as (x & ? & ?);
          [by exists sockets|].
        exists u, x. rewrite elem_of_cons. auto.
    + intros (Hs & u & sockets & [->|Hu]%elem_of_cons & Hl & Hin).
      * left. split; [done|]. by exists sockets.
      * right. split; [done|].
        destruct (proj2 (live_socket_after_prune us username u s Hs)) as (x & ? & ?);
          [by exists sockets|].
        by exists u, x.
Qed.

Lemma recipients_of_ext (us1 us2 : gmap string (gset Socket)) username :
  us1 !! username = us2 !! username ->
  recipients_of live us1 username = recipients_of live us2 username.
Proof. unfold recipients_of. by intros ->. Qed.

Lemma recipients_ext usernames (us1 us2 : gmap string (gset Socket)) :
  (forall k, k ∈ usernames -> us1 !! k = us2 !! k) ->
  recipients live usernames us1 = recipients live usernames us2.
Proof.
  revert us1 us2. induction usernames as [|username rest IH]; intros us1 us2 Hext;
    [done|].
  cbn [recipients]. f_equal.
  - apply recipients_of_ext, Hext, list_elem_of_here.
  - apply IH. intros k Hk. rewrite !lookup_alter.
    rewrite (Hext k) by (by apply list_elem_of_further).
    by rewrite (Hext username) by apply list_elem_of_here.
Qed.

(** Usernames visited once each: every user is met with the set the
    registry had at the start. *)
Lemma recipients_NoDup usernames (us : gmap string (gset Socket)) :
  NoDup usernames ->
  recipients live usernames us = flat_map (recipients_of live us) usernames.
Proof.
  revert us. induction usernames as [|username rest IH]; intros us Hnd; [done|].
  apply NoDup_cons in Hnd as [Hnotin Hnd].
  cbn [recipients flat_map]. f_equal.
  rewrite <- (IH us Hnd). apply recipients_ext.
  intros k Hk. apply lookup_alter_ne. by intros ->.
Qed.

(** The keys of the registry are visited once each, so a walk over its
    items reaches the live part of the audience. *)
Lemma recipients_items (us : gmap string (gset Socket)) :
  recipients live (map_to_list us).*1 us
  = filter (fun s => live s = true) (audience us).
Proof.
  rewrite recipients_NoDup by apply NoDup_fst_map_to_list.
  unfold audience.
  assert (Hitems : forall item, item ∈ map_to_list us -> us !! item.1 = Some item.2).
  { intros [k x] Hin. by apply elem_of_map_to_list in Hin. }
  induction (map_to_list us) as [|item items IH]; [done|].
  cbn [fmap list_fmap flat_map]. rewrite filter_app. f_equal.
  - unfold recipients_of. by rewrite (Hitems item) by apply list_elem_of_here.
  - apply IH. intros ? ?. by apply Hitems, list_elem_of_further.
Qed.

End TransportFacts.

(** ** Fan-out to a room *)

Section FanOut.
Variable live : Socket -> bool.

Lemma elem_of_room_usernames d room_id username :
  username ∈ room_usernames d room_id
  <-> exists user, user ∈ users d /\ User.username user = username
                   /\ is_member d room_id (User.id user).
Proof.
  unfold room_usernames, is_member. rewrite list_elem_of_fmap. split.
  - intros (user & -> & Hin). apply list_elem_of_filter in Hin as [Hid Hin].
    exists user. split; [done|]. split; [done|].
    apply list_elem_of_fmap in Hid as (m & Hm & Hin').
    apply list_elem_of_filter in Hin' as [Hroom Hin'].
    by exists m.
  - intros (user & Hin & <- & m & Hm & Hroom & Huser).
    exists user. split; [done|]. apply list_elem_of_filter. split; [|done].
    apply list_elem_of_fmap. exists m. split; [done|].
    by apply list_elem_of_filter.
Qed.

Lemma broadcast_to_room_spec room_id data w :
  broadcast_to_room live room_id data w
  = (Ok tt,
     mkWorld (db w)
       (prune_all live (room_usernames (db w) room_id) (user_sockets w))
       (sent w ++ ((fun s => (s, data))
                     <$> recipients live (room_usernames (db w) room_id) (user_sockets w)))).
Proof. unfold broadcast_to_room. apply for_each_notify. Qed.

Lemma elem_of_room_recipients w room_id s :
  s ∈ recipients live (room_usernames (db w) room_id) (user_sockets w)
  <-> live s = true /\ member_socket w room_id s.
Proof.
  rewrite elem_of_recipients. unfold member_socket. split.
  - intros (Hs & username & sockets & Hu & Hl & Hin). split; [done|].
    apply elem_of_room_usernames in Hu as (user & ? & <- & ?).
    by exists user, sockets.
  - intros (Hs & user & sockets & Hu & Hm & Hl & Hin). split; [done|].
    exists (User.username user), sockets. split; [|done].
    apply elem_of_room_usernames. by exists user.
Qed.

(** C4: [broadcast_to_room] returns normally, and what it sends is the
    event, to exactly the sockets that take it and are registered under the
    username of a member of the room: every such socket is sent it, no
    other socket is sent anything, and a member without sockets adds
    nothing. *)
Theorem broadcast_to_room_delivers room_id data w :
  exists w' delivered,
    broadcast_to_room live room_id data w = (Ok tt, w')
    /\ sent w' = sent w ++ ((fun s => (s, data)) <$> delivered)
    /\ forall s, s ∈ delivered <-> live s = true /\ member_socket w room_id s.
Proof.
  eexists _, _. split; [apply broadcast_to_room_spec|]. split; [done|].
  apply elem_of_room_recipients.
Qed.

(** C6: whatever sockets raise on [send], [broadcast_to_room] returns
    normally with the database untouched; every socket of a member that
    takes the event is sent it; the set of every member loses exactly its
    failing sockets, and the sets of all other usernames stay as they
    were. *)
Theorem broadcast_to_room_survives_failures room_id data w :
  exists w' delivered,
    broadcast_to_room live room_id data w = (Ok tt, w')
    /\ db w' = db w
    /\ sent w' = sent w ++ ((fun s => (s, data)) <$> delivered)
    /\ (forall s, live s = true -> member_socket w room_id s -> s ∈ delivered)
    /\ (forall user, user ∈ users (db w) -> is_member (db w) room_id (User.id user) ->
          user_sockets w' !! User.username user
          = prune live <$> user_sockets w !! User.username user)
    /\ (forall username sockets s,
          username ∈ room_usernames (db w) room_id ->
          user_sockets w' !! username = Some sockets -> s ∈ sockets -> live s = true)
    /\ (forall username, username ∉ room_usernames (db w) room_id ->
          user_sockets w' !! username = user_sockets w !! username).
Proof.
  eexists _, _. split; [apply broadcast_to_room_spec|]. simpl.
  split; [done|]. split; [done|].
  split; [by intros s ? ?; apply elem_of_room_recipients|].
  split; [|split].
  - intros user Hin Hm. rewrite lookup_prune_all, decide_True; [done|].
    apply elem_of_room_usernames. by exists user.
  - intros username sockets s Hu. rewrite lookup_prune_all, decide_True by done.
    destruct (user_sockets w !! username) as [before|]; simpl; [|done].
    intros [= <-] Hin. by apply elem_of_prune in Hin as [? _].
  - intros username Hu. by rewrite lookup_prune_all, decide_False.
Qed.

(** ** Presence *)

Lemma update_user_status_found username is_online now w user :
  user_by_username (db w) username = Some user ->
  update_user_status live username is_online now w
  = (Ok tt,
     mkWorld (commit_status user is_online now (db w))
       (prune_all live (map_to_list (user_sockets w)).*1 (user_sockets w))
       (sent w ++ ((fun s => (s, user_status username is_online now))
                     <$> filter (fun s => live s = true) (audience (user_sockets w))))).
Proof.
  intros Hfound. unfold update_user_status. rewrite Hfound. cbv zeta.
  rewrite (for_each_fmap fst (notify live _)).
  rewrite for_each_notify. simpl. by rewrite recipients_items.
Qed.

Lemma update_user_status_db username is_online now w :
  room_members (db (update_user_status live username is_online now w).2)
  = room_members (db w).
Proof.
  destruct (user_by_username (db w) username) as [user|] eqn:E.
  - by rewrite (update_user_status_found _ _ _ _ _ E).
  - unfold update_user_status. by rewrite E.
Qed.

(** C9: for a username that no row of the users table carries,
    [update_user_status] returns normally and leaves the world as it was:
    the database, the registry, and the log of what was sent. *)
Theorem update_user_status_unknown username is_online now w :
  (forall user, user ∈ users (db w) -> User.username user <> username) ->
  update_user_status live username is_online now w = (Ok tt, w).
Proof.
  intros Hnone. unfold update_user_status.
  destruct (user_by_username (db w) username) as [user|] eqn:E; [|done].
  apply user_by_username_Some in E as [Hin Hname]. by destruct (Hnone user Hin).
Qed.

Lemma on_disconnect_cleared username now w :
  on_disconnect live username now w
  = update_user_status live username false now
      (set_user_sockets (cleared username (user_sockets w)) w).
Proof.
  unfold on_disconnect, bind, modify, cleared.
  destruct (user_sockets w !! username); [done|].
  unfold set_user_sockets. by rewrite world_eq.
Qed.

(** C1, as the code has it: every disconnect of a user with a row in the
    users table clears the sockets of that user and then sends one offline
    status event to each registered socket that takes it, whether or not
    the user was online before; nothing else is sent. *)
Theorem on_disconnect_broadcasts_offline username now w user :
  user ∈ users (db w) -> User.username user = username ->
  exists w',
    on_disconnect live username now w = (Ok tt, w')
    /\ sent w'
       = sent w ++ ((fun s => (s, user_status username false now))
                      <$> filter (fun s => live s = true)
                            (audience (cleared username (user_sockets w)))).
Proof.
  intros Hin Hname.
  destruct (user_by_username (db w) username) as [found|] eqn:E.
  - eexists. rewrite on_disconnect_cleared.
    split; [by apply (update_user_status_found _ _ _ _ found)|done].
  - by destruct (user_by_username_None _ _ _ E Hin).
Qed.

End FanOut.

(** ** Memberships *)

Lemma join_room_member d user_id room_id now :
  membership_rows d user_id room_id <> [] -> join_room d user_id room_id now = d.
Proof.
  intros H. unfold join_room.
  by destruct (membership_rows d user_id room_id).
Qed.

(** The rows of a pair after a join: the pair joined has one row if it had
    none, every other count is as before. *)
Lemma join_room_count d user_id room_id now user_id' room_id' :
  length (membership_rows (join_room d user_id room_id now) user_id' room_id')
  = if decide (user_id' = user_id /\ room_id' = room_id)
    then Nat.max 1 (length (membership_rows d user_id room_id))
    else length (membership_rows d user_id' room_id').
Proof.
  unfold join_room.
  destruct (membership_rows d user_id room_id) as [|existing rows] eqn:E; simpl.
  - unfold membership_rows in *. simpl. rewrite filter_app, length_app.
    case_decide as Hpair.
    + destruct Hpair as [-> ->]. rewrite E. by rewrite filter_cons_True.
    + rewrite filter_cons_False by (simpl; naive_solver). simpl. lia.
  - case_decide as Hpair; [|done].
    destruct Hpair as [-> ->]. rewrite E. simpl. lia.
Qed.

Lemma join_room_at_most_one d user_id room_id now :
  at_most_one_membership d -> at_most_one_membership (join_room d user_id room_id now).
Proof.
  intros Hinv user_id' room_id'. rewrite join_room_count.
  pose proof (Hinv user_id room_id). pose proof (Hinv user_id' room_id').
  case_decide; lia.
Qed.

Lemma at_most_one_membership_ext d1 d2 :
  room_members d1 = room_members d2 ->
  at_most_one_membership d1 -> at_most_one_membership d2.
Proof.
  intros Heq Hinv user_id room_id. specialize (Hinv user_id room_id).
  unfold membership_rows in *. by rewrite <- Heq.
Qed.

Section CallFacts.
Variable slugify : string -> string.
Variable pwd_hash : string -> outcome string.
Variable get_default_avatar : string -> string.
Variable live : Socket -> bool.

Lemma on_connect_registered username now w :
  on_connect live username now w
  = update_user_status live username true now
      (set_user_sockets (registered username (user_sockets w)) w).
Proof.
  unfold on_connect, bind, modify, registered.
  destruct (user_sockets w !! username); [|done].
  unfold set_user_sockets. by rewrite world_eq.
Qed.

(** Only [join_room] writes to the memberships table. *)
Lemma exec_room_members c now w :
  room_members (db (exec slugify pwd_hash get_default_avatar live c now w))
  = match c with
    | JoinRoom user_id room_id =>
        room_members (join_room (db w) user_id room_id now)
    | _ => room_members (db w)
    end.
Proof.
  destruct c; simpl; try done.
  - unfold create_user. destruct (pwd_hash _); [|done]. by case_decide.
  - unfold get_or_create_room. by destruct (room_by_slug _ _).
  - by rewrite broadcast_to_room_spec.
  - apply update_user_status_db.
  - by rewrite on_connect_registered, update_user_status_db.
  - by rewrite on_disconnect_cleared, update_user_status_db.
Qed.

Lemma exec_at_most_one c now w :
  at_most_one_membership (db w) ->
  at_most_one_membership (db (exec slugify pwd_hash get_default_avatar live c now w)).
Proof.
  intros Hinv. pose proof (exec_room_members c now w) as Hrows.
  destruct c;
    try (by apply (at_most_one_membership_ext (db w)); [symmetry; exact Hrows|]).
  simpl. by apply join_room_at_most_one.
Qed.

Lemma run_at_most_one calls w :
  at_most_one_membership (db w) ->
  at_most_one_membership (db (run slugify pwd_hash get_default_avatar live calls w)).
Proof.
  revert w. induction calls as [|[c now] calls IH]; intros w Hinv; [done|].
  unfold run in *. cbn [foldl]. by apply IH, exec_at_most_one.
Qed.

(** C3: from a database with at most one membership row per pair, every
    sequence of calls leads to a database with at most one row per pair;
    there, [join_room] on a pair that is a member returns the database as
    it is, and two joins of one pair in a row leave exactly one row for
    it. *)
Theorem membership_at_most_once calls w user_id room_id now1 now2 :
  at_most_one_membership (db w) ->
  let d := db (run slugify pwd_hash get_default_avatar live calls w) in
  at_most_one_membership d
  /\ (membership_rows d user_id room_id <> [] -> join_room d user_id room_id now1 = d)
  /\ length (membership_rows
               (join_room (join_room d user_id room_id now1) user_id room_id now2)
               user_id room_id) = 1%nat.
Proof.
  intros Hinv d.
  assert (Hd : at_most_one_membership d) by by apply run_at_most_one.
  split; [done|]. split; [apply join_room_member|].
  rewrite join_room_count, decide_True by done.
  rewrite join_room_count, decide_True by done.
  specialize (Hd user_id room_id). lia.
Qed.

End CallFacts.

(** ** The small deployment, run *)

Example run_example_calls :
  run spec_slugify example_hash example_avatar all_live example_calls
      (mkWorld empty_db example_sockets [])
  = example_world.
Proof. vm_compute. reflexivity. Qed.

Example load_room_messages_example : load_room_messages example_db 1 = [row_m1; row_m2].
Proof. vm_compute. reflexivity. Qed.

Example authenticate_user_example :
  authenticate_user example_verify example_db "alice" "secret1" = Ok (Some alice)
  /\ authenticate_user example_verify example_db "alice" "secret2" = Ok None
  /\ authenticate_user example_verify example_db "carol" "secret1" = Ok None.
Proof. vm_compute. auto. Qed.

(** Bob's socket 9 is closed: the others get the message, 9 leaves the
    registry, the call returns normally. *)
Example broadcast_to_room_example :
  let hi := new_message 3 "hi bob" "alice" 1 150 (example_avatar "alice") in
  let result := broadcast_to_room socket_9_closed 1 hi example_world in
  result.1 = Ok tt
  /\ sent result.2 = [(3%nat, hi); (7%nat, hi)]
  /\ user_sockets result.2 !! "bob"%string = Some {[ 7%nat ]}.
Proof. vm_compute. auto. Qed.

(** Alice's one connection goes away; a second disconnect follows with no
    connect in between, when the registry holds no socket of hers: each of
    the two disconnects sends Bob's sockets an offline event. *)
Lemma second_disconnect_emits_offline_again :
  let off t := user_status "alice" false t in
  let w1 := (on_disconnect all_live "alice" 200 example_world).2 in
  let w2 := (on_disconnect all_live "alice" 201 w1).2 in
  user_sockets w1 !! "alice"%string = Some ∅
  /\ sent w1 = [(9%nat, off 200); (7%nat, off 200)]
  /\ sent w2 = sent w1 ++ [(9%nat, off 201); (7%nat, off 201)]
  /\ sent w2 <> sent w1.
Proof. vm_compute. repeat split. discriminate. Qed.

Lemma get_or_create_room_same_slug_witness :
  spec_slugify "Team Chat" = spec_slugify "team chat"
  /\ (let first := get_or_create_room spec_slugify empty_db "Team Chat" 1 120 in
      let second := get_or_create_room spec_slugify first.2 "team chat" 2 130 in
      ChatRoom.id second.1 = ChatRoom.id first.1
      /\ second.1 = first.1
      /\ second.2 = first.2
      /\ length (rooms_with_slug second.2 (spec_slugify "Team Chat"))
         = Nat.max 1 (length (rooms_with_slug empty_db (spec_slugify "Team Chat")))).
Proof.
  split; [reflexivity|].
  apply (get_or_create_room_same_slug spec_slugify empty_db "Team Chat" "team chat"
           1 2 120 130).
  reflexivity.
Defined.

Lemma get_or_create_room_existing_witness :
  team_chat ∈ chat_rooms example_db
  /\ ChatRoom.slug team_chat = spec_slugify "TEAM chat"
  /\ exists stored,
       get_or_create_room spec_slugify example_db "TEAM chat" 2 300
       = (stored, example_db)
       /\ stored ∈ chat_rooms example_db
       /\ ChatRoom.slug stored = spec_slugify "TEAM chat"
       /\ (slugs_unique example_db -> stored = team_chat).
Proof.
  assert (Hin : team_chat ∈ chat_rooms example_db) by apply list_elem_of_here.
  assert (Hslug : ChatRoom.slug team_chat = spec_slugify "TEAM chat") by reflexivity.
  split; [exact Hin|]. split; [exact Hslug|].
  exact (get_or_create_room_existing spec_slugify example_db "TEAM chat" 2 300
           team_chat Hin Hslug).
Defined.

Lemma recent_messages_in_creation_order_witness :
  row_m1 ∈ messages example_db /\ row_m2 ∈ messages example_db
  /\ Message.room_id row_m1 = 1 /\ Message.room_id row_m2 = 1
  /\ Message.created_at row_m1 < Message.created_at row_m2
  /\ (let view := reverse (get_room_messages example_db 1 50) in
      (length view <= 50)%nat
      /\ (forall m, m ∈ view -> m ∈ messages example_db /\ Message.room_id m = 1)
      /\ (row_m1 ∈ view -> precedes row_m1 row_m2 view)
      /\ ((length (filter (fun m => Message.room_id m = 1%Z) (messages example_db)) <= 50)%nat
          -> precedes row_m1 row_m2 view)).
Proof.
  assert (H1 : row_m1 ∈ messages example_db) by apply list_elem_of_here.
  assert (H2 : row_m2 ∈ messages example_db)
    by apply list_elem_of_further, list_elem_of_here.
  assert (Hlt : Message.created_at row_m1 < Message.created_at row_m2) by reflexivity.
  repeat (split; [done|]).
  exact (recent_messages_in_creation_order example_db 1 50 row_m1 row_m2
           H1 H2 eq_refl eq_refl Hlt).
Defined.

Lemma update_user_status_unknown_witness :
  (forall user, user ∈ users (db example_world) -> User.username user <> "mallory"%string)
  /\ update_user_status all_live "mallory" true 200 example_world = (Ok tt, example_world).
Proof.
  assert (Hnone : forall user, user ∈ users (db example_world) ->
                    User.username user <> "mallory"%string).
  { intros user Hin. apply list_elem_of_In in Hin. simpl in Hin.
    destruct Hin as [<-|[<-|[]]]; discriminate. }
  split; [exact Hnone|].
  exact (update_user_status_unknown all_live "mallory" true 200 example_world Hnone).
Defined.

Lemma on_disconnect_broadcasts_offline_witness :
  alice ∈ users (db example_world) /\ User.username alice = "alice"%string
  /\ exists w',
       on_disconnect all_live "alice" 200 example_world = (Ok tt, w')
       /\ sent w'
          = sent example_world
            ++ ((fun s => (s, user_status "alice" false 200))
                  <$> filter (fun s => all_live s = true)
                        (audience (cleared "alice" (user_sockets example_world)))).
Proof.
  assert (Hin : alice ∈ users (db example_world)) by apply list_elem_of_here.
  split; [exact Hin|]. split; [reflexivity|].
  exact (on_disconnect_broadcasts_offline all_live "alice" 200 example_world alice
           Hin eq_refl).
Defined.

Lemma membership_at_most_once_witness :
  let w := mkWorld empty_db example_sockets [] in
  at_most_one_membership (db w)
  /\ (let d := db (run spec_slugify example_hash example_avatar all_live
                     example_calls w) in
      at_most_one_membership d
      /\ (membership_rows d 2 1 <> [] -> join_room d 2 1 300 = d)
      /\ length (membership_rows (join_room (join_room d 2 1 300) 2 1 301) 2 1) = 1%nat).
Proof.
  intros w.
  assert (Hinv : at_most_one_membership (db w)).
  { intros user_id room_id. simpl. lia. }
  split; [exact Hinv|].
  exact (membership_at_most_once spec_slugify example_hash example_avatar all_live
           example_calls w 2 1 300 301 Hinv).
Defined.

(** * Further properties of the code *)

(** ** Keys and constraints *)

Lemma next_id_gt ids x : x ∈ ids -> x < next_id ids.
Proof.
  unfold next_id. induction ids as [|y ids IH]; [by intros ?%elem_of_nil|].
  intros [->|Hin]%elem_of_cons; simpl; [lia|]. specialize (IH Hin). lia.
Qed.

Lemma NoDup_snoc {A} (l : list A) x : NoDup l -> x ∉ l -> NoDup (l ++ [x]).
Proof.
  intros Hnd Hx. apply NoDup_app. split; [done|]. split.
  - intros y Hy [->|[]%elem_of_nil]%elem_of_cons. done.
  - apply NoDup_singleton.
Qed.

Lemma NoDup_snoc_next_id ids : NoDup ids -> NoDup (ids ++ [next_id ids]).
Proof.
  intros Hnd. apply NoDup_snoc; [done|].
  intros Hin%next_id_gt. lia.
Qed.

Lemma commit_status_ids user is_online now d :
  User.id <$> users (commit_status user is_online now d) = User.id <$> users d.
Proof.
  simpl. rewrite <- list_fmap_compose. apply list_fmap_ext.
  intros i u _. simpl. by case_decide.
Qed.

Lemma commit_status_usernames user is_online now d :
  User.username <$> users (commit_status user is_online now d)
  = User.username <$> users d.
Proof.
  simpl. rewrite <- list_fmap_compose. apply list_fmap_ext.
  intros i u _. simpl. by case_decide.
Qed.

Lemma commit_status_emails user is_online now d :
  User.email <$> users (commit_status user is_online now d) = User.email <$> users d.
Proof.
  simpl. rewrite <- list_fmap_compose. apply list_fmap_ext.
  intros i u _. simpl. by case_decide.
Qed.

Lemma commit_status_constraints user is_online now d :
  constraints d -> constraints (commit_status user is_online now d).
Proof.
  intros [? ? ? ? ? ? ?]. split; try done.
  - by rewrite commit_status_ids.
  - unfold usernames_unique. by rewrite commit_status_usernames.
  - by rewrite commit_status_emails.
Qed.

Lemma join_room_constraints d user_id room_id now :
  constraints d -> constraints (join_room d user_id room_id now).
Proof.
  intros Hc. unfold join_room.
  destruct (head (membership_rows d user_id room_id)); [done|].
  destruct Hc. split; try done. simpl.
  rewrite fmap_app. by apply NoDup_snoc_next_id.
Qed.

Lemma save_message_constraints d content sender_id room_id message_type now :
  constraints d ->
  constraints (save_message d content sender_id room_id message_type now).2.
Proof.
  intros [? ? ? ? ? ? ?]. split; try done. simpl.
  rewrite fmap_app. by apply NoDup_snoc_next_id.
Qed.

Section ConstraintFacts.
Variable slugify : string -> string.
Variable pwd_hash : string -> outcome string.
Variable get_default_avatar : string -> string.
Variable live : Socket -> bool.

Lemma create_user_constraints d username email password full_name now now' :
  constraints d ->
  constraints (create_user pwd_hash get_default_avatar d username email password
                 full_name now now').2.
Proof.
  intros Hc. unfold create_user. destruct (pwd_hash _); [|done].
  case_decide as Hex; [done|].
  rewrite Exists_exists in Hex.
  destruct Hc. split; try done; simpl; try unfold usernames_unique; simpl;
    rewrite fmap_app; simpl.
  - by apply NoDup_snoc_next_id.
  - apply NoDup_snoc; [done|]. intros (u & Hu & Hin)%list_elem_of_fmap.
    apply Hex. exists u. auto.
  - apply NoDup_snoc; [done|]. intros (u & Hu & Hin)%list_elem_of_fmap.
    apply Hex. exists u. auto.
Qed.

Lemma get_or_create_room_constraints d room_name created_by now :
  constraints d ->
  constraints (get_or_create_room slugify d room_name created_by now).2.
Proof.
  intros Hc. unfold get_or_create_room.
  destruct (room_by_slug d (slugify room_name)) as [room|] eqn:E; [done|].
  destruct Hc. split; try done; simpl; try unfold slugs_unique; simpl;
    rewrite fmap_app; simpl.
  - by apply NoDup_snoc_next_id.
  - apply NoDup_snoc; [done|]. intros (r & Hr & Hin)%list_elem_of_fmap.
    apply head_None in E. by apply (filter_nil_not_elem_of _ _ r E).
Qed.

(** What a presence update does to the database. *)
Lemma update_user_status_db_eq username is_online now w :
  db (update_user_status live username is_online now w).2
  = match user_by_username (db w) username with
    | Some user => commit_status user is_online now (db w)
    | None => db w
    end.
Proof.
  destruct (user_by_username (db w) username) as [user|] eqn:E.
  - by rewrite (update_user_status_found _ _ _ _ _ _ E).
  - unfold update_user_status. by rewrite E.
Qed.

Lemma update_user_status_constraints username is_online now w :
  constraints (db w) ->
  constraints (db (update_user_status live username is_online now w).2).
Proof.
  intros Hc. rewrite update_user_status_db_eq.
  destruct (user_by_username (db w) username); [|done].
  by apply commit_status_constraints.
Qed.

Lemma exec_constraints c now w :
  constraints (db w) ->
  constraints (db (exec slugify pwd_hash get_default_avatar live c now w)).
Proof.
  intros Hc. destruct c; simpl.
  - by apply create_user_constraints.
  - by apply get_or_create_room_constraints.
  - by apply join_room_constraints.
  - by apply save_message_constraints.
  - by rewrite broadcast_to_room_spec.
  - by apply update_user_status_constraints.
  - rewrite on_connect_registered. by apply update_user_status_constraints.
  - rewrite on_disconnect_cleared. by apply update_user_status_constraints.
Qed.

(** X1: primary keys and the UNIQUE columns (usernames, emails, slugs) stay
    free of duplicates through every sequence of calls. *)
Theorem run_keeps_constraints calls w :
  constraints (db w) ->
  constraints (db (run slugify pwd_hash get_default_avatar live calls w)).
Proof.
  revert w. induction calls as [|[c now] calls IH]; intros w Hc; [done|].
  unfold run in *. cbn [foldl]. by apply IH, exec_constraints.
Qed.

End ConstraintFacts.

(** ** Nothing is deleted *)

Lemma grown_from_refl d : grown_from d d.
Proof. by split. Qed.

Lemma grown_from_trans d1 d2 d3 : grown_from d1 d2 -> grown_from d2 d3 -> grown_from d1 d3.
Proof. intros [? ? ? ?] [? ? ? ?]. split; by etrans. Qed.

Lemma commit_status_accounts user is_online now d :
  account <$> users (commit_status user is_online now d) = account <$> users d.
Proof.
  simpl. rewrite <- list_fmap_compose. apply list_fmap_ext.
  intros i u _. simpl. by case_decide.
Qed.

Lemma commit_status_grown user is_online now d :
  grown_from d (commit_status user is_online now d).
Proof. split; simpl; try done. by rewrite <- (commit_status_accounts user is_online now d). Qed.

Lemma join_room_grown d user_id room_id now :
  grown_from d (join_room d user_id room_id now).
Proof.
  unfold join_room. destruct (head (membership_rows d user_id room_id)).
  - apply grown_from_refl.
  - split; simpl; try done. by apply prefix_app_r.
Qed.

Lemma save_message_grown d content sender_id room_id message_type now :
  grown_from d (save_message d content sender_id room_id message_type now).2.
Proof. split; simpl; try done. by apply prefix_app_r. Qed.

Section GrowthFacts.
Variable slugify : string -> string.
Variable pwd_hash : string -> outcome string.
Variable get_default_avatar : string -> string.
Variable live : Socket -> bool.

Lemma create_user_grown d username email password full_name now now' :
  grown_from d (create_user pwd_hash get_default_avatar d username email password
                  full_name now now').2.
Proof.
  unfold create_user. destruct (pwd_hash _); [|apply grown_from_refl].
  case_decide; [apply grown_from_refl|].
  split; simpl; try done. rewrite fmap_app. by apply prefix_app_r.
Qed.

Lemma get_or_create_room_grown d room_name created_by now :
  grown_from d (get_or_create_room slugify d room_name created_by now).2.
Proof.
  unfold get_or_create_room. destruct (room_by_slug d (slugify room_name)).
  - apply grown_from_refl.
  - split; simpl; try done. by apply prefix_app_r.
Qed.

Lemma update_user_status_grown username is_online now w :
  grown_from (db w) (db (update_user_status live username is_online now w).2).
Proof.
  rewrite update_user_status_db_eq.
  destruct (user_by_username (db w) username).
  - apply commit_status_grown.
  - apply grown_from_refl.
Qed.

Lemma exec_grown c now w :
  grown_from (db w) (db (exec slugify pwd_hash get_default_avatar live c now w)).
Proof.
  destruct c; simpl.
  - apply create_user_grown.
  - apply get_or_create_room_grown.
  - apply join_room_grown.
  - apply save_message_grown.
  - rewrite broadcast_to_room_spec. apply grown_from_refl.
  - apply update_user_status_grown.
  - rewrite on_connect_registered. apply (update_user_status_grown _ _ _ (set_user_sockets _ w)).
  - rewrite on_disconnect_cleared. apply (update_user_status_grown _ _ _ (set_user_sockets _ w)).
Qed.

(** X2: no sequence of calls deletes or rewrites a room, a membership or a
    message, and of the user rows only [is_online] and [last_seen] ever
    change: each table after the calls starts with the table before. *)
Theorem run_append_only calls w :
  grown_from (db w) (db (run slugify pwd_hash get_default_avatar live calls w)).
Proof.
  revert w. induction calls as [|[c now] calls IH]; intros w.
  - apply grown_from_refl.
  - unfold run in *. cbn [foldl].
    eapply grown_from_trans; [apply (exec_grown c now w)|apply IH].
Qed.

(** ** The registry only shrinks *)

Lemma registered_socket_prune_all usernames (us : gmap string (gset Socket)) s :
  registered_socket (prune_all live usernames us) s -> registered_socket us s.
Proof.
  intros (k & sockets & Hl & Hin). rewrite lookup_prune_all in Hl.
  case_decide; [|by exists k, sockets].
  destruct (us !! k) as [before|] eqn:E; simpl in Hl; [|done].
  injection Hl as <-. apply elem_of_prune in Hin as [_ Hin]. by exists k, before.
Qed.

Lemma registered_socket_fresh_set username (us : gmap string (gset Socket)) s :
  registered_socket (<[username := ∅]> us) s -> registered_socket us s.
Proof.
  intros (k & sockets & Hl & Hin).
  destruct (decide (username = k)) as [->|Hne].
  - rewrite lookup_insert_eq in Hl. injection Hl as <-. set_solver.
  - rewrite lookup_insert_ne in Hl by done. by exists k, sockets.
Qed.

Lemma registered_socket_cleared username (us : gmap string (gset Socket)) s :
  registered_socket (cleared username us) s -> registered_socket us s.
Proof.
  unfold cleared. destruct (us !! username); [|done].
  apply registered_socket_fresh_set.
Qed.

Lemma registered_socket_registered username (us : gmap string (gset Socket)) s :
  registered_socket (registered username us) s -> registered_socket us s.
Proof.
  unfold registered. destruct (us !! username); [done|].
  apply registered_socket_fresh_set.
Qed.

Lemma recipients_registered usernames (us : gmap string (gset Socket)) s :
  s ∈ recipients live usernames us -> registered_socket us s.
Proof.
  intros (_ & k & sockets & _ & Hl & Hin)%elem_of_recipients. by exists k, sockets.
Qed.

Lemma recipients_none usernames (us : gmap string (gset Socket)) :
  (forall s, ~ registered_socket us s) -> recipients live usernames us = [].
Proof.
  intros Hnone. apply elem_of_nil_inv. intros s Hin%recipients_registered.
  by apply (Hnone s).
Qed.

Lemma update_user_status_sockets username is_online now w s :
  registered_socket (user_sockets (update_user_status live username is_online now w).2) s
  -> registered_socket (user_sockets w) s.
Proof.
  destruct (user_by_username (db w) username) as [user|] eqn:E.
  - rewrite (update_user_status_found _ _ _ _ _ _ E). simpl.
    apply registered_socket_prune_all.
  - unfold update_user_status. by rewrite E.
Qed.

Lemma update_user_status_silent username is_online now w :
  (forall s, ~ registered_socket (user_sockets w) s) ->
  sent (update_user_status live username is_online now w).2 = sent w.
Proof.
  intros Hnone.
  destruct (user_by_username (db w) username) as [user|] eqn:E.
  - rewrite (update_user_status_found _ _ _ _ _ _ E). simpl.
    rewrite <- recipients_items, recipients_none by done. simpl. apply app_nil_r.
  - unfold update_user_status. by rewrite E.
Qed.

Lemma exec_sockets c now w s :
  registered_socket (user_sockets (exec slugify pwd_hash get_default_avatar live c now w)) s
  -> registered_socket (user_sockets w) s.
Proof.
  destruct c; simpl; try done.
  - rewrite broadcast_to_room_spec. simpl. apply registered_socket_prune_all.
  - apply update_user_status_sockets.
  - rewrite on_connect_registered. intros H%update_user_status_sockets.
    by apply registered_socket_registered in H.
  - rewrite on_disconnect_cleared. intros H%update_user_status_sockets.
    by apply registered_socket_cleared in H.
Qed.

Lemma exec_silent c now w :
  (forall s, ~ registered_socket (user_sockets w) s) ->
  sent (exec slugify pwd_hash get_default_avatar live c now w) = sent w.
Proof.
  intros Hnone. destruct c; simpl; try done.
  - rewrite broadcast_to_room_spec. simpl.
    rewrite recipients_none by done. apply app_nil_r.
  - by apply update_user_status_silent.
  - rewrite on_connect_registered, update_user_status_silent; [done|].
    intros s H. by apply registered_socket_registered, Hnone in H.
  - rewrite on_disconnect_cleared, update_user_status_silent; [done|].
    intros s H. by apply registered_socket_cleared, Hnone in H.
Qed.

(** X3: no call puts a socket into [user_sockets]: every socket registered
    after a sequence of calls was registered before it.  So when no socket
    is registered at the start, as in the running application, where
    [on_connect] only creates empty sets, no call ever sends anything. *)
Theorem run_never_registers_socket calls w :
  (forall s,
     registered_socket
       (user_sockets (run slugify pwd_hash get_default_avatar live calls w)) s ->
     registered_socket (user_sockets w) s)
  /\ ((forall s, ~ registered_socket (user_sockets w) s) ->
      sent (run slugify pwd_hash get_default_avatar live calls w) = sent w).
Proof.
  revert w. induction calls as [|[c now] calls IH]; intros w; [done|].
  unfold run in *. cbn [foldl fst snd].
  destruct (IH (exec slugify pwd_hash get_default_avatar live c now w)) as [IH1 IH2].
  split.
  - intros s H. by apply IH1, exec_sockets in H.
  - intros Hnone. rewrite IH2.
    + by apply exec_silent.
    + intros s H. by apply exec_sockets, Hnone in H.
Qed.

End GrowthFacts.

(** ** Messages of a room *)

Lemma room_messages_length d room_id :
  length (merge_sort newer_first
            (filter (fun m => Message.room_id m = room_id) (messages d)))
  = length (filter (fun m => Message.room_id m = room_id) (messages d)).
Proof. by rewrite merge_sort_Permutation. Qed.

(** X4: [get_room_messages] returns as many rows as the room has messages,
    up to [limit]: all of them when the room has no more than [limit], none
    for a limit of 0 or a room without messages. *)
Theorem get_room_messages_count d room_id limit :
  length (get_room_messages d room_id limit)
  = Nat.min limit
      (length (filter (fun m => Message.room_id m = room_id) (messages d))).
Proof. unfold get_room_messages. by rewrite length_take, room_messages_length. Qed.

(** X5: a message saved to another room does not change what
    [get_room_messages] returns for a room. *)
Theorem save_message_other_room d content sender_id room_id message_type now
    other_room limit :
  other_room <> room_id ->
  get_room_messages (save_message d content sender_id room_id message_type now).2
                    other_room limit
  = get_room_messages d other_room limit.
Proof.
  intros Hne. unfold get_room_messages, save_message. simpl.
  rewrite filter_app, filter_cons_False by (simpl; congruence).
  by rewrite filter_nil, app_nil_r.
Qed.

(** X6: a message saved at a clock reading later than every message of its
    room is the newest row: with a limit of at least 1 it is the first row
    of [get_room_messages] and the last one of the oldest-first view. *)
Theorem save_message_shown_last d content sender_id room_id message_type now limit :
  (forall m, m ∈ messages d -> Message.room_id m = room_id ->
             Message.created_at m < now) ->
  (0 < limit)%nat ->
  let saved := save_message d content sender_id room_id message_type now in
  head (get_room_messages saved.2 room_id limit) = Some saved.1
  /\ last (reverse (get_room_messages saved.2 room_id limit)) = Some saved.1.
Proof.
  intros Hold Hlimit saved.
  assert (Hhead : head (get_room_messages saved.2 room_id limit) = Some saved.1).
  { unfold get_room_messages.
    pose proof (room_messages_sorted saved.2 room_id) as Hsorted.
    assert (Hin : saved.1 ∈ merge_sort newer_first
              (filter (fun m => Message.room_id m = room_id) (messages saved.2))).
    { apply elem_of_room_messages. split; [done|]. simpl.
      apply elem_of_app. right. apply list_elem_of_here. }
    destruct (merge_sort newer_first _) as [|x rest] eqn:E;
      [by apply elem_of_nil in Hin|].
    destruct limit as [|limit]; [lia|]. simpl. f_equal.
    assert (Hx : x ∈ merge_sort newer_first
              (filter (fun m => Message.room_id m = room_id) (messages saved.2)))
      by (rewrite E; apply list_elem_of_here).
    apply elem_of_room_messages in Hx as [Hroom Hx]. simpl in Hx.
    apply elem_of_app in Hx as [Hx|Hx].
    - apply StronglySorted_cons in Hsorted as [Hall _].
      rewrite Forall_forall in Hall.
      apply elem_of_cons in Hin as [Hin|Hin]; [done|].
      specialize (Hall _ Hin). unfold newer_first in Hall. simpl in Hall.
      specialize (Hold x Hx Hroom). lia.
    - by apply list_elem_of_singleton in Hx. }
  split; [done|]. by rewrite last_reverse.
Qed.

(** ** Rooms of a user *)

#[local] Instance name_order_total : Total name_order.
Proof.
  unfold name_order. intros a b.
  destruct (String_as_OT.compare_spec (ChatRoom.name a) (ChatRoom.name b)) as [?|?|Hlt];
    [left; congruence..|].
  right. unfold String_as_OT.lt in Hlt. congruence.
Qed.

#[local] Instance name_order_transitive : Transitive name_order.
Proof.
  unfold name_order. intros a b c Hab Hbc.
  destruct (String_as_OT.compare_spec (ChatRoom.name a) (ChatRoom.name b)) as [Eab|Lab|?];
    [| |done].
  - by rewrite Eab.
  - destruct (String_as_OT.compare_spec (ChatRoom.name b) (ChatRoom.name c))
      as [Ebc|Lbc|?]; [| |done].
    + rewrite <- Ebc. unfold String_as_OT.lt in Lab. congruence.
    + assert (Hlt : String_as_OT.lt (ChatRoom.name a) (ChatRoom.name c))
        by (by etrans).
      unfold String_as_OT.lt in Hlt. congruence.
Qed.

Lemma joins_is_member d user_id room :
  Exists (joins user_id room) (room_members d)
  <-> is_member d (ChatRoom.id room) user_id.
Proof. rewrite Exists_exists. unfold joins, is_member. naive_solver. Qed.

Lemma elem_of_get_user_rooms d user_id room :
  room ∈ get_user_rooms d user_id
  <-> room ∈ chat_rooms d /\ is_member d (ChatRoom.id room) user_id.
Proof.
  unfold get_user_rooms.
  rewrite merge_sort_Permutation, list_elem_of_filter, joins_is_member. tauto.
Qed.

(** X7: [get_user_rooms] lists exactly the stored rooms in which the user
    has a membership row, in ascending order of their names. *)
Theorem get_user_rooms_spec d user_id :
  (forall room,
     room ∈ get_user_rooms d user_id
     <-> room ∈ chat_rooms d /\ is_member d (ChatRoom.id room) user_id)
  /\ StronglySorted name_order (get_user_rooms d user_id).
Proof.
  split; [intros room; apply elem_of_get_user_rooms|].
  apply StronglySorted_merge_sort; apply _.
Qed.

Lemma is_member_join_room d user_id room_id now :
  is_member (join_room d user_id room_id now) room_id user_id.
Proof.
  unfold join_room, is_member.
  destruct (head (membership_rows d user_id room_id)) as [existing|] eqn:E.
  - apply head_Some_elem_of, list_elem_of_filter in E as [[? ?] ?]. by exists existing.
  - eexists. split; [simpl; apply elem_of_app; right; apply list_elem_of_here|done].
Qed.

(** X8: [join_room] looks up neither the user nor the room: after it the
    pair is a member whatever the ids are, and if a stored room has that id
    it is among the rooms [get_user_rooms] lists for the user. *)
Theorem join_room_then_listed d user_id room_id now :
  is_member (join_room d user_id room_id now) room_id user_id
  /\ forall room, room ∈ chat_rooms d -> ChatRoom.id room = room_id ->
       room ∈ get_user_rooms (join_room d user_id room_id now) user_id.
Proof.
  split; [apply is_member_join_room|].
  intros room Hin <-. apply elem_of_get_user_rooms. split.
  - destruct (rooms_kept _ _ (join_room_grown d user_id (ChatRoom.id room) now))
      as [more ->].
    apply elem_of_app. by left.
  - apply is_member_join_room.
Qed.

(** ** Registration and credentials *)

Lemma head_filter_None {A} (P : A -> Prop) `{!forall x, Decision (P x)} (l : list A) :
  head (filter P l) = None <-> ~ Exists P l.
Proof.
  rewrite head_None, Exists_exists. split.
  - intros Hnil (x & Hin & HP). by apply (filter_nil_not_elem_of P l x Hnil).
  - intros Hnone. apply elem_of_nil_inv. intros x [HP Hin]%list_elem_of_filter.
    apply Hnone. by exists x.
Qed.

Section RegistrationFacts.
Variable pwd_hash : string -> outcome string.
Variable pwd_verify : string -> string -> outcome bool.
Variable get_default_avatar : string -> string.

Lemma create_user_Ok d username email password full_name now now' user d' :
  create_user pwd_hash get_default_avatar d username email password full_name now now'
  = (Ok user, d') ->
  ~ Exists (fun u => User.username u = username \/ User.email u = email) (users d)
  /\ users d' = users d ++ [user]
  /\ User.username user = username /\ User.email user = email
  /\ pwd_hash password = Ok (User.hashed_password user).
Proof.
  unfold create_user. destruct (pwd_hash password) as [hashed|e]; [|done].
  case_decide; [done|]. by intros [= <- <-].
Qed.

Lemma user_by_username_new d d' user :
  users d' = users d ++ [user] ->
  ~ Exists (fun u => User.username u = User.username user) (users d) ->
  user_by_username d' (User.username user) = Some user.
Proof.
  intros Husers Hnew. unfold user_by_username. rewrite Husers, filter_app.
  apply (proj2 (head_filter_None _ _)), head_None in Hnew. rewrite Hnew. simpl.
  by rewrite filter_cons_True.
Qed.

Lemma authenticate_created d d' user password :
  users d' = users d ++ [user] ->
  ~ Exists (fun u => User.username u = User.username user
                     \/ User.email u = User.email user) (users d) ->
  pwd_verify password (User.hashed_password user) = Ok true ->
  authenticate_user pwd_verify d' (User.username user) password = Ok (Some user).
Proof.
  intros Husers Hnew Hverify. unfold authenticate_user.
  rewrite (user_by_username_new d d' user Husers).
  - by rewrite Hverify.
  - intros Hex. apply Hnew. eapply Exists_impl; [exact Hex|]. naive_solver.
Qed.

(** X9: a user that [create_user] has stored can log in: with a password
    context whose [verify] accepts the hash of the password,
    [authenticate_user] on the new database returns that user for the
    username and password given to [create_user]. *)
Theorem create_user_then_authenticate d username email password full_name now now'
    user d' :
  (forall hashed, pwd_hash password = Ok hashed ->
                  pwd_verify password hashed = Ok true) ->
  create_user pwd_hash get_default_avatar d username email password full_name now now'
  = (Ok user, d') ->
  authenticate_user pwd_verify d' username password = Ok (Some user).
Proof.
  intros Hverify Hcreate.
  apply create_user_Ok in Hcreate as (Hnew & Husers & Hname & Hemail & Hhash).
  subst username email. by apply (authenticate_created d), Hverify.
Qed.

(** The three ways [handle_register] ends. *)
Lemma handle_register_cases username email full_name password confirm_password
    now now' d :
  let result :=
    handle_register pwd_hash get_default_avatar username email full_name password
                    confirm_password now now' d in
  let valid :=
    nonempty username = true /\ nonempty email = true /\ nonempty password = true
    /\ password = confirm_password /\ (6 <= String.length password)%nat
    /\ ~ Exists (fun u => User.username u = username \/ User.email u = email)
           (users d) in
  (exists user, result.1 = Registered user
     /\ create_user pwd_hash get_default_avatar d username email password
          (Some full_name) now now' = (Ok user, result.2)
     /\ valid)
  \/ (exists e, result.1 = RegistrationFailed e /\ result.2 = d
        /\ pwd_hash password = Raise e /\ valid)
  \/ (result.2 = d
      /\ (result.1 = MissingFields \/ result.1 = PasswordMismatch
          \/ result.1 = PasswordTooShort \/ result.1 = AlreadyExists)
      /\ ~ valid).
Proof.
  intros result valid. subst result valid. unfold handle_register.
  destruct (nonempty username) eqn:Hu; simpl;
    [|right; right; split; [done|]; split; [auto|]; intros (? & _); done].
  destruct (nonempty email) eqn:He; simpl;
    [|right; right; split; [done|]; split; [auto|]; intros (_ & ? & _); done].
  destruct (nonempty password) eqn:Hp; simpl;
    [|right; right; split; [done|]; split; [auto|]; intros (_ & _ & ? & _); done].
  destruct (String.eqb password confirm_password) eqn:Hc; simpl.
  2: { apply String.eqb_neq in Hc. right; right. split; [done|]. split; [auto|].
       intros (_ & _ & _ & ? & _). done. }
  apply String.eqb_eq in Hc.
  destruct (String.length password <? 6)%nat eqn:Hlen.
  { apply Nat.ltb_lt in Hlen. right; right. split; [done|]. split; [auto|].
    intros (_ & _ & _ & _ & ? & _). lia. }
  apply Nat.ltb_ge in Hlen.
  destruct (head (filter _ (users d))) as [existing|] eqn:Hex.
  { right; right. simpl. split; [done|]. split; [auto|].
    intros (_ & _ & _ & _ & _ & Hnew). apply Hnew.
    apply head_Some_elem_of, list_elem_of_filter in Hex as [HP Hin].
    apply Exists_exists. by exists existing. }
  apply (proj1 (head_filter_None _ _)) in Hex.
  unfold create_user. destruct (pwd_hash password) as [hashed|e] eqn:Hhash.
  - left. rewrite decide_False by done. simpl. eexists. repeat split; done.
  - right; left. simpl. exists e. repeat split; done.
Qed.

(** X10: [handle_register] stores a user exactly when all three required
    fields are filled in, the passwords are equal and at least 6 characters
    long, no stored user has the username or the email, and hashing the
    password goes through.  It ends in the "Registration failed" label
    exactly when all those checks pass and hashing the password raises, so
    never through a refused commit.  Whenever no user is registered the
    database is as it was. *)
Theorem handle_register_spec username email full_name password confirm_password
    now now' d :
  let result :=
    handle_register pwd_hash get_default_avatar username email full_name password
                    confirm_password now now' d in
  let valid :=
    nonempty username = true /\ nonempty email = true /\ nonempty password = true
    /\ password = confirm_password /\ (6 <= String.length password)%nat
    /\ ~ Exists (fun u => User.username u = username \/ User.email u = email)
           (users d) in
  (forall e, result.1 = RegistrationFailed e <-> valid /\ pwd_hash password = Raise e)
  /\ ((exists user, result.1 = Registered user)
      <-> valid /\ exists hashed, pwd_hash password = Ok hashed)
  /\ ((forall user, result.1 <> Registered user) -> result.2 = d).
Proof.
  intros result valid.
  pose proof (handle_register_cases username email full_name password confirm_password
                now now' d) as Hcases.
  cbv zeta in Hcases. fold result valid in Hcases.
  destruct Hcases as [(user & Hres & Hcreate & Hvalid)
                     |[(e' & Hres & Hdb & Hhash & Hvalid)|(Hdb & Hlabel & Hinvalid)]].
  - apply create_user_Ok in Hcreate as (_ & _ & _ & _ & Hhash).
    split; [|split].
    + intros e. rewrite Hres. split; [done|]. intros [_ He]. congruence.
    + split; [by eauto|]. by exists user.
    + intros Hnot. by destruct (Hnot user).
  - split; [|split].
    + intros e. rewrite Hres. split.
      * intros [= <-]. done.
      * intros [_ He]. congruence.
    + split.
      * intros [user Hu]. congruence.
      * intros [_ [hashed Hh]]. congruence.
    + done.
  - split; [|split].
    + intros e. split; [|by intros [? _]].
      intros He. rewrite He in Hlabel. destruct Hlabel as [?|[?|[?|?]]]; discriminate.
    + split; [|by intros [? _]].
      intros [user Hu]. rewrite Hu in Hlabel.
      destruct Hlabel as [?|[?|[?|?]]]; discriminate.
    + done.
Qed.

(** X11: registration and login fit together: after a registration that
    succeeded, [authenticate_user] returns the new user for the username
    and password of the form, given that [verify] accepts the hash of that
    password. *)
Theorem register_then_login username email full_name password confirm_password
    now now' d user :
  (forall hashed, pwd_hash password = Ok hashed ->
                  pwd_verify password hashed = Ok true) ->
  let result :=
    handle_register pwd_hash get_default_avatar username email full_name password
                    confirm_password now now' d in
  result.1 = Registered user ->
  authenticate_user pwd_verify result.2 username password = Ok (Some user)
  /\ user ∈ users result.2.
Proof.
  intros Hverify result Hres. subst result.
  pose proof (handle_register_cases username email full_name password confirm_password
                now now' d) as Hcases.
  cbv zeta in Hcases.
  destruct Hcases as [(user' & Hres' & Hcreate & _)
                     |[(e & Hres' & _)|(_ & Hlabel & _)]].
  - rewrite Hres in Hres'. injection Hres' as <-.
    apply create_user_Ok in Hcreate as (Hnew & Husers & Hname & Hemail & Hhash).
    subst username email. split.
    + by apply (authenticate_created d), Hverify.
    + rewrite Husers. apply elem_of_app. right. apply list_elem_of_here.
  - congruence.
  - rewrite Hres in Hlabel. destruct Hlabel as [?|[?|[?|?]]]; discriminate.
Qed.

End RegistrationFacts.

(** ** Joining a room from the chat page *)

Lemma join_room_chat_rooms d user_id room_id now :
  chat_rooms (join_room d user_id room_id now) = chat_rooms d.
Proof. unfold join_room. by destruct (head _). Qed.

Lemma join_room_users d user_id room_id now :
  users (join_room d user_id room_id now) = users d.
Proof. unfold join_room. by destruct (head _). Qed.

Lemma join_room_again d user_id room_id now now' :
  join_room (join_room d user_id room_id now) user_id room_id now'
  = join_room d user_id room_id now.
Proof.
  apply join_room_member. intros Hnil.
  pose proof (join_room_count d user_id room_id now user_id room_id) as Hcount.
  rewrite Hnil, decide_True in Hcount by done. simpl in Hcount. lia.
Qed.

Section JoinFacts.
Variable slugify : string -> string.

Lemma get_or_create_room_users d room_name created_by now :
  users (get_or_create_room slugify d room_name created_by now).2 = users d.
Proof. unfold get_or_create_room. by destruct (room_by_slug _ _). Qed.

Lemma get_or_create_room_stored d room_name created_by now :
  room_by_slug (get_or_create_room slugify d room_name created_by now).2
               (slugify room_name)
  = Some (get_or_create_room slugify d room_name created_by now).1.
Proof.
  pose proof (get_or_create_room_lookup slugify d room_name created_by now) as H.
  by destruct (get_or_create_room slugify d room_name created_by now).
Qed.

(** X12: with a user logged in and a name that is not blank,
    [join_new_room] ends with the user a member of a stored room whose slug
    is that of the stripped name; this room is the current room and is in
    the list [get_user_rooms] gives for the user, and nothing that was
    stored before is lost. *)
Theorem join_new_room_joins app room_name now1 now2 d username user :
  current_user app = Some username -> nonempty username = true ->
  nonempty (strip room_name) = true ->
  user_by_username d username = Some user ->
  let result := join_new_room slugify app room_name now1 now2 d in
  exists room,
    room ∈ chat_rooms result.2
    /\ ChatRoom.slug room = slugify (strip room_name)
    /\ current_room result.1 = Some (ChatRoom.id room)
    /\ current_user result.1 = Some username
    /\ is_member result.2 (ChatRoom.id room) (User.id user)
    /\ room ∈ get_user_rooms result.2 (User.id user)
    /\ grown_from d result.2.
Proof.
  intros Hcur Hname Hblank Hfound result. subst result.
  unfold join_new_room. rewrite Hcur, Hblank. simpl. rewrite Hname, Hfound. simpl.
  set (created := get_or_create_room slugify d (strip room_name) (User.id user) now1).
  pose proof (get_or_create_room_stored d (strip room_name) (User.id user) now1) as Hst.
  fold created in Hst. apply room_by_slug_Some in Hst as [Hin Hslug].
  exists created.1.
  assert (Hin' : created.1 ∈ chat_rooms
            (join_room created.2 (User.id user) (ChatRoom.id created.1) now2))
    by by rewrite join_room_chat_rooms.
  repeat split; try done.
  - apply is_member_join_room.
  - apply elem_of_get_user_rooms. split; [done|]. apply is_member_join_room.
  - apply (accounts_kept d). eapply grown_from_trans;
      [apply (get_or_create_room_grown slugify)|apply join_room_grown].
  - apply (rooms_kept d). eapply grown_from_trans;
      [apply (get_or_create_room_grown slugify)|apply join_room_grown].
  - apply (members_kept d). eapply grown_from_trans;
      [apply (get_or_create_room_grown slugify)|apply join_room_grown].
  - apply (messages_kept d). eapply grown_from_trans;
      [apply (get_or_create_room_grown slugify)|apply join_room_grown].
Qed.

(** X13: [join_new_room] is idempotent: pressing the button again with the
    same name, at any later time, changes neither the database nor the
    current room. *)
Theorem join_new_room_idempotent app room_name now1 now2 now3 now4 d :
  let result := join_new_room slugify app room_name now1 now2 d in
  join_new_room slugify result.1 room_name now3 now4 result.2 = result.
Proof.
  intros result. subst result. unfold join_new_room at 2 3.
  destruct (negb (nonempty (strip room_name)) || negb (truthy_str (current_user app)))
    eqn:Hguard.
  { simpl. unfold join_new_room. by rewrite Hguard. }
  destruct (user_by_username d (default EmptyString (current_user app)))
    as [user|] eqn:Hfound.
  2: { simpl. unfold join_new_room. by rewrite Hguard, Hfound. }
  set (created := get_or_create_room slugify d (strip room_name) (User.id user) now1).
  simpl. unfold join_new_room. simpl. rewrite Hguard.
  assert (Hfound' : user_by_username
            (join_room created.2 (User.id user) (ChatRoom.id created.1) now2)
            (default EmptyString (current_user app)) = Some user).
  { unfold created, user_by_username in *.
    by rewrite join_room_users, (get_or_create_room_users d). }
  rewrite Hfound'.
  assert (Hroom : room_by_slug
            (join_room created.2 (User.id user) (ChatRoom.id created.1) now2)
            (slugify (strip room_name)) = Some created.1).
  { pose proof (get_or_create_room_stored d (strip room_name) (User.id user) now1) as Hst.
    unfold created, room_by_slug in *. by rewrite join_room_chat_rooms. }
  rewrite (get_or_create_room_found slugify _ _ _ _ _ Hroom). simpl.
  by rewrite join_room_again, Hfound.
Qed.

End JoinFacts.

(** ** Sending a message from the chat page *)

Section SendFacts.
Variable get_default_avatar : string -> string.
Variable live : Socket -> bool.

Lemma member_socket_ext w w' room_id s :
  users (db w') = users (db w) -> room_members (db w') = room_members (db w) ->
  user_sockets w' = user_sockets w ->
  member_socket w' room_id s <-> member_socket w room_id s.
Proof.
  intros Hu Hm Hs. unfold member_socket, is_member. by rewrite Hu, Hm, Hs.
Qed.

(** X14: a message that is not blank, sent by a stored user into a stored
    room, is saved as one new row with the stripped text, the sender, the
    room and the clock reading, and then sent as a [new_message] event to
    exactly the live sockets of the members of the room; the input field is
    cleared.  The sender need not be a member of the room. *)
Theorem send_message_delivers app input now w username room_id user room :
  current_user app = Some username -> nonempty username = true ->
  current_room app = Some room_id -> room_id <> 0 ->
  nonempty (strip input) = true ->
  user_by_username (db w) username = Some user ->
  room_by_id (db w) room_id = Some room ->
  exists w' message delivered,
    send_message get_default_avatar live app input now w = (Ok EmptyString, w')
    /\ messages (db w') = messages (db w) ++ [message]
    /\ users (db w') = users (db w) /\ chat_rooms (db w') = chat_rooms (db w)
    /\ room_members (db w') = room_members (db w)
    /\ Message.content message = strip input
    /\ Message.sender_id message = User.id user
    /\ Message.room_id message = room_id
    /\ Message.created_at message = now
    /\ sent w'
       = sent w ++ ((fun s => (s, new_message (Message.id message) (strip input)
                                    username room_id now
                                    (avatar_of get_default_avatar user)))
                      <$> delivered)
    /\ forall s, s ∈ delivered <-> live s = true /\ member_socket w room_id s.
Proof.
  intros Hcur Hname Hroom Hnz Hblank Huser Hfound.
  assert (Hid : ChatRoom.id room = room_id).
  { by apply head_Some_elem_of, list_elem_of_filter in Hfound as [? _]. }
  assert (Hun : User.username user = username)
    by by apply user_by_username_Some in Huser as [_ ?].
  unfold send_message. rewrite Hcur, Hroom. simpl.
  rewrite Hname, Hblank. simpl.
  rewrite (proj2 (Z.eqb_neq room_id 0) Hnz). simpl.
  rewrite Huser, Hfound. unfold bind. rewrite broadcast_to_room_spec. simpl.
  rewrite Hid, Hun.
  eexists _, _, _. split; [reflexivity|]. simpl.
  repeat (split; [done|]).
  intros s. rewrite elem_of_recipients.
  unfold member_socket. simpl. split.
  - intros (Hs & k & sockets & Hk & Hl & Hin). split; [done|].
    apply elem_of_room_usernames in Hk as (u & ? & <- & ?).
    by exists u, sockets.
  - intros (Hs & u & sockets & Hu & Hm & Hl & Hin). split; [done|].
    exists (User.username u), sockets. split; [|done].
    apply elem_of_room_usernames. by exists u.
Qed.

(** X15: a blank input, no user logged in, no room chosen, or a user or
    room that is not stored: [send_message] stores nothing, sends nothing
    and leaves the text in the input field. *)
Theorem send_message_ignored app input now w :
  nonempty (strip input) = false
  \/ truthy_str (current_user app) = false
  \/ truthy_int (current_room app) = false
  \/ user_by_username (db w) (default EmptyString (current_user app)) = None
  \/ room_by_id (db w) (default 0 (current_room app)) = None ->
  send_message get_default_avatar live app input now w = (Ok input, w).
Proof.
  intros Hwhy. unfold send_message.
  destruct (truthy_int (current_room app)); simpl; [|done].
  destruct (truthy_str (current_user app)); simpl; [|done].
  destruct (nonempty (strip input)); simpl; [|done].
  destruct (user_by_username _ _); [|done].
  destruct (room_by_id _ _); [|done].
  destruct Hwhy as [?|[?|[?|[?|?]]]]; done.
Qed.

(** X16: a broadcast to a room without membership rows, such as a room id
    that no room has, returns normally and changes nothing. *)
Theorem broadcast_to_room_no_members room_id data w :
  (forall m, m ∈ room_members (db w) -> RoomMember.room_id m <> room_id) ->
  broadcast_to_room live room_id data w = (Ok tt, w).
Proof.
  intros Hnone. unfold broadcast_to_room.
  assert (Hnil : room_usernames (db w) room_id = []).
  { apply elem_of_nil_inv. intros k (u & _ & _ & m & Hm & Hr & _)%elem_of_room_usernames.
    by apply (Hnone m). }
  by rewrite Hnil.
Qed.

End SendFacts.

(** ** Presence in the database and in the registry *)

Lemma head_filter_fmap {A} (P : A -> Prop) `{!forall x, Decision (P x)}
    (f : A -> A) (l : list A) :
  (forall x, P (f x) <-> P x) ->
  head (filter P (f <$> l)) = f <$> head (filter P l).
Proof.
  intros HP. induction l as [|x l IH]; [done|].
  rewrite fmap_cons. destruct (decide (P x)) as [Hx|Hx].
  - rewrite !filter_cons_True by (done || by apply HP). done.
  - rewrite !filter_cons_False by (done || by rewrite HP). done.
Qed.

Lemma user_by_username_commit_status user is_online now d username :
  user_by_username (commit_status user is_online now d) username
  = (fun u =>
       if decide (User.id u = User.id user)
       then User.mk (User.id u) (User.username u) (User.email u) (User.hashed_password u)
                    (User.full_name u) (User.avatar_url u) is_online now
                    (User.created_at u)
       else u) <$> user_by_username d username.
Proof.
  unfold user_by_username. simpl. apply head_filter_fmap.
  intros u. by case_decide.
Qed.

Section PresenceFacts.
Variable live : Socket -> bool.

Lemma prune_all_items (us : gmap string (gset Socket)) :
  prune_all live (map_to_list us).*1 us = prune live <$> us.
Proof.
  apply map_eq. intros k. rewrite lookup_prune_all, lookup_fmap.
  case_decide as Hk; [done|].
  destruct (us !! k) as [sockets|] eqn:E; [|done].
  destruct Hk. apply list_elem_of_fmap. exists (k, sockets).
  split; [done|]. by apply elem_of_map_to_list.
Qed.

(** X17: for a stored username [update_user_status] writes the flag and
    the clock reading into the row that the lookup by username finds, and
    into no row with another id; the number of rows stays the same. *)
Theorem update_user_status_sets_presence username is_online now w user :
  user_by_username (db w) username = Some user ->
  let d' := db (update_user_status live username is_online now w).2 in
  user_by_username d' username
  = Some (User.mk (User.id user) (User.username user) (User.email user)
                  (User.hashed_password user) (User.full_name user)
                  (User.avatar_url user) is_online now (User.created_at user))
  /\ (forall other, other ∈ users (db w) -> User.id other <> User.id user ->
        other ∈ users d')
  /\ length (users d') = length (users (db w)).
Proof.
  intros Hfound d'. subst d'.
  rewrite update_user_status_db_eq, Hfound. split; [|split].
  - rewrite user_by_username_commit_status, Hfound. simpl.
    by rewrite decide_True.
  - intros other Hin Hne. simpl. apply list_elem_of_fmap. exists other.
    split; [|done]. by rewrite decide_False.
  - simpl. by rewrite length_fmap.
Qed.

(** X18: a presence update for a stored username reaches the whole
    registry: each registered socket that takes the event is sent it, once
    per set it is in, and afterwards every set holds exactly its sockets
    that took it. *)
Theorem update_user_status_prunes_registry username is_online now w user :
  user_by_username (db w) username = Some user ->
  let w' := (update_user_status live username is_online now w).2 in
  user_sockets w' = prune live <$> user_sockets w
  /\ sent w'
     = sent w ++ ((fun s => (s, user_status username is_online now))
                    <$> filter (fun s => live s = true) (audience (user_sockets w))).
Proof.
  intros Hfound w'. subst w'.
  rewrite (update_user_status_found _ _ _ _ _ _ Hfound). simpl.
  by rewrite prune_all_items.
Qed.

Lemma on_connect_spec username now w user :
  user_by_username (db w) username = Some user ->
  db (on_connect live username now w).2 = commit_status user true now (db w)
  /\ user_sockets (on_connect live username now w).2
     = prune live <$> registered username (user_sockets w).
Proof.
  intros Hfound. rewrite on_connect_registered.
  rewrite (update_user_status_found _ _ _ _ (set_user_sockets _ w) user) by done.
  simpl. by rewrite prune_all_items.
Qed.

Lemma on_disconnect_spec username now w user :
  user_by_username (db w) username = Some user ->
  db (on_disconnect live username now w).2 = commit_status user false now (db w)
  /\ user_sockets (on_disconnect live username now w).2
     = prune live <$> cleared username (user_sockets w).
Proof.
  intros Hfound. rewrite on_disconnect_cleared.
  rewrite (update_user_status_found _ _ _ _ (set_user_sockets _ w) user) by done.
  simpl. by rewrite prune_all_items.
Qed.

(** X19: for a stored user, [on_connect] marks the user online and leaves
    the user with a set in the registry; a following [on_disconnect] marks
    the user offline with the later clock reading and leaves that set
    empty. *)
Theorem connect_then_disconnect username now1 now2 w user :
  user_by_username (db w) username = Some user ->
  let w1 := (on_connect live username now1 w).2 in
  let w2 := (on_disconnect live username now2 w1).2 in
  (exists row, user_by_username (db w1) username = Some row
     /\ User.is_online row = true /\ User.last_seen row = now1
     /\ account row = account user)
  /\ is_Some (user_sockets w1 !! username)
  /\ (exists row, user_by_username (db w2) username = Some row
        /\ User.is_online row = false /\ User.last_seen row = now2
        /\ account row = account user)
  /\ user_sockets w2 !! username = Some ∅.
Proof.
  intros Hfound w1 w2.
  destruct (on_connect_spec username now1 w user Hfound) as [Hdb1 Hus1].
  fold w1 in Hdb1, Hus1.
  assert (Hrow1 : user_by_username (db w1) username
            = Some (User.mk (User.id user) (User.username user) (User.email user)
                      (User.hashed_password user) (User.full_name user)
                      (User.avatar_url user) true now1 (User.created_at user))).
  { rewrite Hdb1, user_by_username_commit_status, Hfound. simpl.
    by rewrite decide_True. }
  destruct (on_disconnect_spec username now2 w1 _ Hrow1) as [Hdb2 Hus2].
  fold w2 in Hdb2, Hus2.
  split; [by eexists|]. split.
  { rewrite Hus1, lookup_fmap. unfold registered.
    destruct (user_sockets w !! username) eqn:E.
    - by rewrite E.
    - by rewrite lookup_insert_eq. }
  assert (Hentry : is_Some (user_sockets w1 !! username)).
  { rewrite Hus1, lookup_fmap. unfold registered.
    destruct (user_sockets w !! username) eqn:E.
    - by rewrite E.
    - by rewrite lookup_insert_eq. }
  split.
  - eexists. split.
    + rewrite Hdb2, user_by_username_commit_status, Hrow1. simpl.
      by rewrite decide_True.
    + done.
  - rewrite Hus2, lookup_fmap. unfold cleared.
    destruct Hentry as [sockets Hentry]. rewrite Hentry, lookup_insert_eq. simpl.
    f_equal; try (apply set_eq; intros s; rewrite elem_of_prune; set_solver).
Qed.

End PresenceFacts.

(** ** Sessions *)

Section SessionFacts.
Variable pwd_verify : string -> string -> outcome bool.
Variable live : Socket -> bool.

Lemma update_user_status_Ok username is_online now w :
  (update_user_status live username is_online now w).1 = Ok tt.
Proof.
  destruct (user_by_username (db w) username) as [user|] eqn:E.
  - by rewrite (update_user_status_found _ _ _ _ _ _ E).
  - unfold update_user_status. by rewrite E.
Qed.

(** X20: a login with credentials that [authenticate_user] accepts stores
    the session under the UUID drawn, and [chat_page] then admits the
    browser; after the logout button the same browser is sent to the login
    page, while the user's row still says online, since logging out makes
    no presence update.  A login that is refused, or in which [verify]
    raises, changes nothing. *)
Theorem login_then_logout username password session_id now storage site :
  nonempty session_id = true ->
  let result := handle_login pwd_verify live username password session_id now
                             storage site in
  match authenticate_user pwd_verify (db (world site)) username password with
  | Ok (Some user) =>
      exists storage' site',
        result = (Ok (storage', true), site')
        /\ active_sessions site' !! session_id = Some (User.username user)
        /\ chat_page_admits storage' site' = true
        /\ (let out := logout session_id site' in
            chat_page_admits out.1 out.2 = false
            /\ chat_page_admits storage' out.2 = false
            /\ db (world out.2) = commit_status user true now (db (world site)))
  | Ok None => result = (Ok (storage, false), site)
  | Raise e => result = (Raise e, site)
  end.
Proof.
  intros Hsid result. subst result. unfold handle_login.
  destruct (authenticate_user pwd_verify (db (world site)) username password)
    as [[user|]|e] eqn:Hauth; [|done..].
  pose proof (update_user_status_Ok (User.username user) true now (world site)) as Hok.
  assert (Hfound : user_by_username (db (world site)) (User.username user) = Some user).
  { unfold authenticate_user in Hauth.
    destruct (user_by_username (db (world site)) username) as [found|] eqn:E; [|done].
    destruct (pwd_verify _ _) as [[]|]; simpl in Hauth; [|done..].
    injection Hauth as ->.
    pose proof (user_by_username_Some _ _ _ E) as [_ Hname]. by rewrite Hname. }
  pose proof (update_user_status_db_eq live (User.username user) true now (world site))
    as Hdb.
  rewrite Hfound in Hdb.
  destruct (update_user_status live (User.username user) true now (world site))
    as [[[]|e] w'] eqn:E; simpl in Hok; [|done].
  eexists _, _. split; [done|]. simpl in *.
  split; [by rewrite lookup_insert_eq|].
  unfold chat_page_admits. simpl.
  rewrite Hsid, lookup_insert_eq, lookup_delete_eq. simpl.
  by rewrite bool_decide_eq_true_2.
Qed.

End SessionFacts.

(** ** The avatar cache *)

Section AvatarFacts.
Variable md5_hexdigest md5_hexdigest' : string -> string.
Variable http_get http_get' : string -> option (nat * string).
Variable writable writable' : string -> bool.

Lemma get_default_avatar_cached username am :
  let result := AvatarManager.get_default_avatar md5_hexdigest http_get writable
                  username am in
  AvatarManager.avatar_cache result.2 !! username = Some result.1
  /\ (forall other, other <> username ->
        AvatarManager.avatar_cache result.2 !! other
        = AvatarManager.avatar_cache am !! other).
Proof.
  unfold AvatarManager.get_default_avatar, AvatarManager.use_fallback.
  destruct (AvatarManager.avatar_cache am !! username) as [url|] eqn:E; [done|].
  destruct (http_get _) as [[status content]|]; simpl.
  - destruct ((status =? 200)%nat && writable _); simpl;
      (split; [by rewrite lookup_insert_eq|]);
      intros other Hne; by rewrite lookup_insert_ne.
  - split; [by rewrite lookup_insert_eq|].
    intros other Hne. by rewrite lookup_insert_ne.
Qed.

(** X21: the avatar of a username is settled by the first call: whatever
    the web service answers later, every further call returns the URL the
    first call returned, requests nothing and writes nothing; the URL is
    the local file of the username or the generated fallback unless it was
    in the cache before, and the entries of other usernames are not
    touched. *)
Theorem get_default_avatar_stable username am :
  let first := AvatarManager.get_default_avatar md5_hexdigest http_get writable
                 username am in
  AvatarManager.get_default_avatar md5_hexdigest' http_get' writable' username first.2
  = first
  /\ (AvatarManager.avatar_cache am !! username = None ->
      (first.1 = AvatarManager.local_url username
       \/ first.1 = AvatarManager.fallback_url username)
      /\ AvatarManager.requested first.2
         = AvatarManager.requested am
           ++ [AvatarManager.portrait_url md5_hexdigest username])
  /\ (forall other, other <> username ->
        AvatarManager.avatar_cache first.2 !! other
        = AvatarManager.avatar_cache am !! other).
Proof.
  intros first.
  destruct (get_default_avatar_cached username am) as [Hhit Hothers].
  fold first in Hhit, Hothers.
  split; [|split; [|done]].
  - unfold AvatarManager.get_default_avatar at 1. rewrite Hhit. by destruct first.
  - intros Hmiss. subst first.
    unfold AvatarManager.get_default_avatar, AvatarManager.use_fallback.
    rewrite Hmiss.
    destruct (http_get _) as [[status content]|]; simpl; [|auto].
    destruct ((status =? 200)%nat && writable _); simpl; auto.
Qed.

End AvatarFacts.

(** ** The further properties on the small deployment *)

Example strip_examples :
  strip "  Team Chat " = "Team Chat"%string /\ strip "   " = EmptyString
  /\ strip "a  b" = "a  b"%string.
Proof. vm_compute. auto. Qed.

Example get_user_rooms_example :
  get_user_rooms example_db 1 = [team_chat] /\ get_user_rooms example_db 7 = [].
Proof. vm_compute. auto. Qed.

Example join_new_room_example :
  join_new_room spec_slugify alice_app " Off Topic " 300 301 example_db
  = (mkChatApp (Some "alice"%string) (Some 2),
     mkDB [alice; bob]
          [team_chat; ChatRoom.mk 2 "Off Topic" "off-topic" None 1 300 false]
          [alice_in_team_chat; bob_in_team_chat; RoomMember.mk 3 2 1 301 false]
          [row_m1; row_m2]).
Proof. vm_compute. reflexivity. Qed.

Example handle_register_examples :
  (handle_register example_hash example_avatar "dave" "dave@example.org" ""
                   "short" "short" 200 201 example_db).1 = PasswordTooShort
  /\ (handle_register example_hash example_avatar "alice" "other@example.org" ""
                      "secret9" "secret9" 200 201 example_db).1 = AlreadyExists
  /\ (handle_register example_hash example_avatar "dave" "" ""
                      "secret9" "secret9" 200 201 example_db).1 = MissingFields
  /\ (handle_register example_hash example_avatar "dave" "dave@example.org" ""
                      "secret9" "secret8" 200 201 example_db).1 = PasswordMismatch
  /\ handle_register example_hash example_avatar "dave" "dave@example.org" ""
                     ("secret" +:+ nul_password) ("secret" +:+ nul_password)
                     200 201 example_db
     = (RegistrationFailed PasswordValueError, example_db).
Proof. vm_compute. auto 6. Qed.

Lemma run_keeps_constraints_witness :
  constraints (db start_world)
  /\ constraints (db (run spec_slugify example_hash example_avatar all_live
                        example_calls start_world)).
Proof.
  assert (Hc : constraints (db start_world)).
  { split; unfold usernames_unique, slugs_unique; simpl; apply NoDup_nil_2. }
  split; [exact Hc|].
  exact (run_keeps_constraints spec_slugify example_hash example_avatar all_live
           example_calls start_world Hc).
Defined.

Lemma save_message_other_room_witness :
  1 <> 2
  /\ get_room_messages (save_message example_db "elsewhere" 2 2 "text" 150).2 1 50
     = get_room_messages example_db 1 50.
Proof.
  assert (Hne : 1 <> 2) by lia.
  split; [exact Hne|].
  exact (save_message_other_room example_db "elsewhere" 2 2 "text" 150 1 50 Hne).
Defined.

Lemma save_message_shown_last_witness :
  (forall m, m ∈ messages example_db -> Message.room_id m = 1 ->
             Message.created_at m < 150)
  /\ (0 < 50)%nat
  /\ (let saved := save_message example_db "m3" 2 1 "text" 150 in
      head (get_room_messages saved.2 1 50) = Some saved.1
      /\ last (reverse (get_room_messages saved.2 1 50)) = Some saved.1).
Proof.
  assert (Hold : forall m, m ∈ messages example_db -> Message.room_id m = 1 ->
                   Message.created_at m < 150).
  { intros m Hin _. apply list_elem_of_In in Hin. simpl in Hin.
    destruct Hin as [<-|[<-|[]]]; reflexivity. }
  assert (Hlimit : (0 < 50)%nat) by lia.
  split; [exact Hold|]. split; [exact Hlimit|].
  exact (save_message_shown_last example_db "m3" 2 1 "text" 150 50 Hold Hlimit).
Defined.

Lemma create_user_then_authenticate_witness :
  (forall hashed, example_hash "secret1" = Ok hashed ->
                  example_verify "secret1" hashed = Ok true)
  /\ create_user example_hash example_avatar empty_db "alice" "alice@example.org"
       "secret1" None 100 100
     = (Ok alice, mkDB [alice] [] [] [])
  /\ authenticate_user example_verify (mkDB [alice] [] [] []) "alice" "secret1"
     = Ok (Some alice).
Proof.
  assert (Hverify : forall hashed, example_hash "secret1" = Ok hashed ->
                      example_verify "secret1" hashed = Ok true).
  { intros hashed [= <-]. reflexivity. }
  assert (Hcreate : create_user example_hash example_avatar empty_db "alice"
                      "alice@example.org" "secret1" None 100 100
                    = (Ok alice, mkDB [alice] [] [] [])) by reflexivity.
  split; [exact Hverify|]. split; [exact Hcreate|].
  exact (create_user_then_authenticate example_hash example_verify example_avatar
           empty_db "alice" "alice@example.org" "secret1" None 100 100 alice
           (mkDB [alice] [] [] []) Hverify Hcreate).
Defined.

Lemma register_then_login_witness :
  (forall hashed, example_hash "secret3" = Ok hashed ->
                  example_verify "secret3" hashed = Ok true)
  /\ (let result :=
        handle_register example_hash example_avatar "carol" "carol@example.org"
                        "Carol" "secret3" "secret3" 200 201 example_db in
      result.1 = Registered carol
      /\ authenticate_user example_verify result.2 "carol" "secret3" = Ok (Some carol)
      /\ carol ∈ users result.2).
Proof.
  assert (Hverify : forall hashed, example_hash "secret3" = Ok hashed ->
                      example_verify "secret3" hashed = Ok true).
  { intros hashed [= <-]. reflexivity. }
  assert (Hres : (handle_register example_hash example_avatar "carol"
                    "carol@example.org" "Carol" "secret3" "secret3" 200 201
                    example_db).1 = Registered carol) by reflexivity.
  split; [exact Hverify|]. split; [exact Hres|].
  exact (register_then_login example_hash example_verify example_avatar "carol"
           "carol@example.org" "Carol" "secret3" "secret3" 200 201 example_db carol
           Hverify Hres).
Defined.

Lemma join_new_room_joins_witness :
  current_user alice_app = Some "alice"%string
  /\ nonempty "alice" = true
  /\ nonempty (strip "  Team Chat ") = true
  /\ user_by_username example_db "alice" = Some alice
  /\ (let result := join_new_room spec_slugify alice_app "  Team Chat " 300 301
                      example_db in
      exists room,
        room ∈ chat_rooms result.2
        /\ ChatRoom.slug room = spec_slugify (strip "  Team Chat ")
        /\ current_room result.1 = Some (ChatRoom.id room)
        /\ current_user result.1 = Some "alice"%string
        /\ is_member result.2 (ChatRoom.id room) (User.id alice)
        /\ room ∈ get_user_rooms result.2 (User.id alice)
        /\ grown_from example_db result.2).
Proof.
  assert (Hfound : user_by_username example_db "alice" = Some alice) by reflexivity.
  repeat (split; [reflexivity|]).
  exact (join_new_room_joins spec_slugify alice_app "  Team Chat " 300 301 example_db
           "alice" alice eq_refl eq_refl eq_refl Hfound).
Defined.

Lemma send_message_delivers_witness :
  current_user alice_app = Some "alice"%string
  /\ nonempty "alice" = true
  /\ current_room alice_app = Some 1
  /\ 1 <> 0
  /\ nonempty (strip " hi bob ") = true
  /\ user_by_username (db example_world) "alice" = Some alice
  /\ room_by_id (db example_world) 1 = Some team_chat
  /\ exists w' message delivered,
       send_message example_avatar socket_9_closed alice_app " hi bob " 150
                    example_world = (Ok EmptyString, w')
       /\ messages (db w') = messages (db example_world) ++ [message]
       /\ users (db w') = users (db example_world)
       /\ chat_rooms (db w') = chat_rooms (db example_world)
       /\ room_members (db w') = room_members (db example_world)
       /\ Message.content message = strip " hi bob "
       /\ Message.sender_id message = User.id alice
       /\ Message.room_id message = 1
       /\ Message.created_at message = 150
       /\ sent w'
          = sent example_world
            ++ ((fun s => (s, new_message (Message.id message) (strip " hi bob ")
                                "alice" 1 150 (avatar_of example_avatar alice)))
                  <$> delivered)
       /\ forall s, s ∈ delivered
                    <-> socket_9_closed s = true /\ member_socket example_world 1 s.
Proof.
  assert (Hnz : 1 <> 0) by lia.
  assert (Huser : user_by_username (db example_world) "alice" = Some alice)
    by reflexivity.
  assert (Hroom : room_by_id (db example_world) 1 = Some team_chat) by reflexivity.
  repeat (split; [done|]).
  exact (send_message_delivers example_avatar socket_9_closed alice_app " hi bob " 150
           example_world "alice" 1 alice team_chat eq_refl eq_refl eq_refl Hnz eq_refl
           Huser Hroom).
Defined.

Lemma send_message_ignored_witness :
  (nonempty (strip "   ") = false
   \/ truthy_str (current_user alice_app) = false
   \/ truthy_int (current_room alice_app) = false
   \/ user_by_username (db example_world)
        (default EmptyString (current_user alice_app)) = None
   \/ room_by_id (db example_world) (default 0 (current_room alice_app)) = None)
  /\ send_message example_avatar all_live alice_app "   " 150 example_world
     = (Ok "   "%string, example_world).
Proof.
  assert (Hwhy : nonempty (strip "   ") = false
            \/ truthy_str (current_user alice_app) = false
            \/ truthy_int (current_room alice_app) = false
            \/ user_by_username (db example_world)
                 (default EmptyString (current_user alice_app)) = None
            \/ room_by_id (db example_world)
                 (default 0 (current_room alice_app)) = None)
    by (left; reflexivity).
  split; [exact Hwhy|].
  exact (send_message_ignored example_avatar all_live alice_app "   " 150
           example_world Hwhy).
Defined.

Lemma broadcast_to_room_no_members_witness :
  (forall m, m ∈ room_members (db example_world) -> RoomMember.room_id m <> 5)
  /\ broadcast_to_room all_live 5 (user_status "alice" true 150) example_world
     = (Ok tt, example_world).
Proof.
  assert (Hnone : forall m, m ∈ room_members (db example_world) ->
                    RoomMember.room_id m <> 5).
  { intros m Hin. apply list_elem_of_In in Hin. simpl in Hin.
    destruct Hin as [<-|[<-|[]]]; discriminate. }
  split; [exact Hnone|].
  exact (broadcast_to_room_no_members all_live 5 (user_status "alice" true 150)
           example_world Hnone).
Defined.

Lemma update_user_status_sets_presence_witness :
  user_by_username (db example_world) "bob" = Some bob
  /\ (let d' := db (update_user_status all_live "bob" true 150 example_world).2 in
      user_by_username d' "bob"
      = Some (User.mk (User.id bob) (User.username bob) (User.email bob)
                      (User.hashed_password bob) (User.full_name bob)
                      (User.avatar_url bob) true 150 (User.created_at bob))
      /\ (forall other, other ∈ users (db example_world) ->
            User.id other <> User.id bob -> other ∈ users d')
      /\ length (users d') = length (users (db example_world))).
Proof.
  assert (Hfound : user_by_username (db example_world) "bob" = Some bob)
    by reflexivity.
  split; [exact Hfound|].
  exact (update_user_status_sets_presence all_live "bob" true 150 example_world bob
           Hfound).
Defined.

Lemma update_user_status_prunes_registry_witness :
  user_by_username (db example_world) "bob" = Some bob
  /\ (let w' := (update_user_status socket_9_closed "bob" true 150 example_world).2 in
      user_sockets w' = prune socket_9_closed <$> user_sockets example_world
      /\ sent w'
         = sent example_world
           ++ ((fun s => (s, user_status "bob" true 150))
                 <$> filter (fun s => socket_9_closed s = true)
                       (audience (user_sockets example_world)))).
Proof.
  assert (Hfound : user_by_username (db example_world) "bob" = Some bob)
    by reflexivity.
  split; [exact Hfound|].
  exact (update_user_status_prunes_registry socket_9_closed "bob" true 150
           example_world bob Hfound).
Defined.

Lemma connect_then_disconnect_witness :
  user_by_username (db example_world) "bob" = Some bob
  /\ (let w1 := (on_connect all_live "bob" 150 example_world).2 in
      let w2 := (on_disconnect all_live "bob" 160 w1).2 in
      (exists row, user_by_username (db w1) "bob" = Some row
         /\ User.is_online row = true /\ User.last_seen row = 150
         /\ account row = account bob)
      /\ is_Some (user_sockets w1 !! "bob"%string)
      /\ (exists row, user_by_username (db w2) "bob" = Some row
            /\ User.is_online row = false /\ User.last_seen row = 160
            /\ account row = account bob)
      /\ user_sockets w2 !! "bob"%string = Some ∅).
Proof.
  assert (Hfound : user_by_username (db example_world) "bob" = Some bob)
    by reflexivity.
  split; [exact Hfound|].
  exact (connect_then_disconnect all_live "bob" 150 160 example_world bob Hfound).
Defined.

Lemma login_then_logout_witness :
  nonempty "session-1" = true
  /\ (let result := handle_login example_verify all_live "alice" "secret1"
                      "session-1" 150 (mkStorage None None) example_site in
      match authenticate_user example_verify (db (world example_site))
              "alice" "secret1" with
      | Ok (Some user) =>
          exists storage' site',
            result = (Ok (storage', true), site')
            /\ active_sessions site' !! "session-1"%string = Some (User.username user)
            /\ chat_page_admits storage' site' = true
            /\ (let out := logout "session-1" site' in
                chat_page_admits out.1 out.2 = false
                /\ chat_page_admits storage' out.2 = false
                /\ db (world out.2)
                   = commit_status user true 150 (db (world example_site)))
      | Ok None => result = (Ok (mkStorage None None, false), example_site)
      | Raise e => result = (Raise e, example_site)
      end).
Proof.
  split; [reflexivity|].
  exact (login_then_logout example_verify all_live "alice" "secret1" "session-1" 150
           (mkStorage None None) example_site eq_refl).
Defined.

(** ** One chat application for all browsers *)

Section SharedAppFacts.
Variable get_default_avatar : string -> string.
Variable live : Socket -> bool.

Lemma send_message_saved app input now w username room_id user room :
  current_user app = Some username -> nonempty username = true ->
  current_room app = Some room_id -> room_id <> 0 ->
  nonempty (strip input) = true ->
  user_by_username (db w) username = Some user ->
  room_by_id (db w) room_id = Some room ->
  messages (db (send_message get_default_avatar live app input now w).2)
  = messages (db w)
    ++ [Message.mk (next_id (Message.id <$> messages (db w))) (strip input)
                   (User.id user) room_id "text" None now false None].
Proof.
  intros Hcur Hname Hroom Hnz Hblank Huser Hfound.
  assert (Hid : ChatRoom.id room = room_id).
  { by apply head_Some_elem_of, list_elem_of_filter in Hfound as [? _]. }
  unfold send_message. rewrite Hcur, Hroom. simpl.
  rewrite Hname, Hblank. simpl.
  rewrite (proj2 (Z.eqb_neq room_id 0) Hnz). simpl.
  rewrite Huser, Hfound. unfold bind. rewrite broadcast_to_room_spec. simpl.
  by rewrite Hid.
Qed.

(** X22: there is one [chat_app] for all browsers, and every [chat_page]
    that passes the session check overwrites its current user.  After two
    browsers have loaded the chat page, [send_message], whichever Send
    button runs it, saves the text of the input field the application holds
    with the user of the browser that loaded the page last as the sender. *)
Theorem send_message_sender_is_latest_page first_storage last_storage site app input now
    username room_id user room :
  chat_page_admits first_storage site = true ->
  chat_page_admits last_storage site = true ->
  stored_username last_storage = Some username -> nonempty username = true ->
  current_room app = Some room_id -> room_id <> 0 ->
  nonempty (strip input) = true ->
  user_by_username (db (world site)) username = Some user ->
  room_by_id (db (world site)) room_id = Some room ->
  let shared := chat_page last_storage site (chat_page first_storage site app) in
  current_user shared = Some username
  /\ exists message,
       messages (db (send_message get_default_avatar live shared input now
                       (world site)).2)
       = messages (db (world site)) ++ [message]
       /\ Message.sender_id message = User.id user
       /\ Message.content message = strip input.
Proof.
  intros Hfirst Hlast Hname Hnonempty Hroom Hnz Hblank Huser Hfound shared.
  assert (Hshared : shared = mkChatApp (Some username) (Some room_id)).
  { subst shared. unfold chat_page. by rewrite Hfirst, Hlast, Hname, <- Hroom. }
  rewrite Hshared. split; [done|].
  eexists. split; [by eapply send_message_saved|done].
Qed.

End SharedAppFacts.

Lemma send_message_sender_is_latest_page_witness :
  chat_page_admits alice_storage two_sessions_site = true
  /\ chat_page_admits bob_storage two_sessions_site = true
  /\ stored_username bob_storage = Some "bob"%string
  /\ nonempty "bob" = true
  /\ current_room alice_app = Some 1
  /\ 1 <> 0
  /\ nonempty (strip "hello") = true
  /\ user_by_username (db (world two_sessions_site)) "bob" = Some bob
  /\ room_by_id (db (world two_sessions_site)) 1 = Some team_chat
  /\ (let shared := chat_page bob_storage two_sessions_site
                      (chat_page alice_storage two_sessions_site alice_app) in
      current_user shared = Some "bob"%string
      /\ exists message,
           messages (db (send_message example_avatar all_live shared
                           "hello" 150 (world two_sessions_site)).2)
           = messages (db (world two_sessions_site)) ++ [message]
           /\ Message.sender_id message = User.id bob
           /\ Message.content message = strip "hello").
Proof.
  assert (Hnz : 1 <> 0) by lia.
  assert (Huser : user_by_username (db (world two_sessions_site)) "bob" = Some bob)
    by reflexivity.
  assert (Hroom : room_by_id (db (world two_sessions_site)) 1 = Some team_chat)
    by reflexivity.
  assert (H1 : chat_page_admits alice_storage two_sessions_site = true) by reflexivity.
  assert (H2 : chat_page_admits bob_storage two_sessions_site = true) by reflexivity.
  do 9 (split; [done|]).
  exact (send_message_sender_is_latest_page example_avatar all_live alice_storage
           bob_storage two_sessions_site alice_app "hello" 150 "bob" 1 bob
           team_chat H1 H2 eq_refl eq_refl eq_refl Hnz eq_refl Huser Hroom).
Defined.
